(* ===== verification/_CoqProject ===== *)
-Q . S2P
Prelude.v
Config.v
PyFloat.v
Image.v
Backend.v
ToyBackend.v
Normalizer.v
ColorSegmenter.v
StableSort.v
RegionExtractor.v
LabelPlacer.v
Annotator.v
Pipeline.v
Batch.v
Console.v
