(* ===== verification/Prelude.v ===== *)
(** * A verification library for the colour-band annotator of [src/y.py]

    ** The program

    [src/y.py] is one Python script built on OpenCV and numpy.  For every
    file of an input folder whose name ends with [.png], [.jpg] or [.jpeg]
    (any case), it reads the image, letterboxes it into a black 800 x 800
    canvas, converts the canvas to HSV once, and for each entry of an
    ordered table of eight named hue bands builds the band's mask, finds its
    external contours, ranks them by area and boxes them, largest first,
    until the first one below 7000 pixels of area.  Each box gets a label
    whose anchor avoids, greedily, the labels already placed on the image.
    The annotated canvas is written under the same name to an output
    folder.  An unreadable file is reported and skipped; any exception
    ends the run.

    ** The files, in dependency order

    - [Prelude] (this file): the notations of [cv_scope] ([a // b] for
      Python's floor division, [lo <=? x <=? hi] for a chained
      comparison), Python's [range] as [zrange], the loop-with-[break]
      combinator [take_while] and its lemmas, the tactics [zcase] and
      [range_lia], the hint databases [cv] and [cv_rw], and the generic
      fold and sortedness lemmas the components share.
    - [Config]: the module globals of lines 6-25: the table [color_names]
      (the dict, as its ordered item list), [min_area], the canvas size.
    - [PyFloat]: Python floats as IEEE binary64, through the Standard
      Library's executable [SpecFloat] (no axiom): int-to-float conversion,
      true division, product, [min], [int()].
    - [Image]: numpy arrays as [grid]s (shape and cell function) with the
      equivalence [grid_eq]; [np.zeros]; the slice assignment with Python's
      slice bounds and numpy's shape check; the exceptions the script can
      raise and the [outcome] type with its [let*] notation.
    - [Backend]: the interface to OpenCV, the class [CvBackend]
      ([cv2.resize], the per-pixel [cv2.cvtColor], [cv2.findContours],
      [cv2.getTextSize], the rasterisation of the drawing calls
      [draw_op]), and [CvLaws], the facts about OpenCV the theorems assume
      (shapes, contours inside the mask, no contour in an empty mask, the
      four corners of a filled rectangle, drawing keeps the shape).
    - [ToyBackend]: a concrete backend, proved to satisfy [CvLaws], used
      only by witnesses to run the model on concrete inputs.
    - [Normalizer] (lines 38-51): [resize_dims] (the float computation of
      the target size), [resize], the offsets and [normalize]; [spec_dims]
      is the spec's exact-arithmetic target, for comparison.
    - [ColorSegmenter] (lines 54, 61-63): [to_hsv], [in_range] (the
      [cv2.inRange] test [in_range_px], with a [Decidable] instance for the
      spec's [in_band]) and [bands_of], the bands claiming a pixel.
    - [StableSort] (line 69): [sort_desc], the stable descending sort of
      [sorted(..., key, reverse=True)], and its characterisation.
    - [RegionExtractor] (lines 66-78): [contour_area2] (twice
      [cv2.contourArea], exact in [Z]), [bounding_rect]
      ([cv2.boundingRect]), [ranked] and [surviving] (the [break]).
    - [LabelPlacer] (lines 81-89): [default_anchor], [resolve_y] (the
      first-conflict rule), [label_anchor].
    - [Annotator] (lines 79, 92-98): the drawing calls [box_op] and
      [label_ops], and [replay], their effect on the canvas.
    - [Pipeline] (lines 38-101): the per-image state [frame] (canvas,
      drawing calls so far, [contour_count], [text_positions]),
      [draw_contour] (the loop body), [contour_loop] (the loop and its
      [break]), [process_band], [band_loop], [process_image],
      [output_image]; the step relation [reachable] and its invariant
      [frame_inv]; to state what an image gets, the outlines read back as
      boxes ([box_rects]), the greedy placement of a sequence of boxes
      ([place_all]) and the outlines of a band ([band_boxes]).
    - [Batch] (lines 19-36, 103-108): the filesystem environment [fs]
      (whether [os.makedirs] returns, the [os.listdir] result, [imread],
      whether [imwrite] succeeds), the name filter [is_image_file],
      [save], [run_files] (the file loop, with [Crashed] for an uncaught
      exception) and [main] (lines 21 and 28, then the loop).
    - [Console] (lines 35, 106, 108): the text of the prints,
      [console_line], and the standard output [stdout]; the decoder
      [parse_stdout] used to state what the output determines.

    ** How the model corresponds to the code

    Python ints are [Z]; Python floats are binary64 ([PyFloat]), so the
    target size is the one the script computes, rounding included.  A
    numpy image is a [grid] of BGR triples; a mask a [grid] of booleans.
    In-place drawing on the canvas is kept as the ordered list of drawing
    calls made on it; the pixels written are their [replay] through the
    backend.  Exceptions are values of [outcome] and [run_result].  The
    loops are structural recursions over their lists (no fuel is needed:
    every loop of the script runs over a finite list).  OpenCV's
    algorithms (area resampling, HSV conversion, contour tracing, text
    metrics, rasterisation) are library code: they are the operations of
    [CvBackend], and a theorem that depends on them assumes [CvLaws]; the
    simpler OpenCV routines whose results the script branches on
    ([inRange], [contourArea], [boundingRect]) are modelled in full.

    ** What the theorems show (claims C1-C34)

    - The canvas: every written image is 800 x 800 (C1, C14); the resized
      image sits at the floor-divided offsets with black around it (C2);
      the float target fills one side to 799 or 800 pixels (C16, checked
      exhaustively for sides up to 4096, which is where the bound is
      stated); a 97-pixel-wide source leaves a black column (C10) and a
      very elongated source makes [cv2.resize] raise (C15) and ends the
      whole run (C9).
    - The bands: how the table covers saturated hues, with its overlaps
      (C19) and the red hues past 170 that no band claims (C20).
    - The regions: breaking at the first small contour equals filtering
      the ranked list (C3); the loop body runs on exactly the large
      contours (C11), largest first (C17); the area is the polygon's, not
      the pixel count (C18).
    - The labels: the default anchor (C12), the first-conflict rule (C4),
      where a label can land (C26), and that the moved label clears the
      one it moved for (C13).
    - The image: the invariant of the drawing loop by rule induction (C8),
      the count of boxes and labels (C22), append-only anchors and drawing
      calls (C21); the outlines are, band by band in table order, the boxes
      of the surviving contours (C32), each from the region's least
      coordinates to one past its greatest, hence possibly at column or
      row 800 (C34); every anchor is the greedy resolution of its box
      against all anchors before it, across bands (C33); the spec's
      scenarios: a single red rectangle gets one box labelled "Red" (C5),
      an image with no band pixel gets no drawing (C6).
    - The batch: one readable and one unreadable file give one output and
      one failure line (C7); one log line per file (C23), and exactly which
      line, in listing order, with the outputs when writes succeed (C29);
      a failed write is reported as saved (C24); a crash leaves the files
      before it handled and the files after it unread (C27); the name
      filter keeps exactly the names with an image extension in any case
      (C25, C28); distinct files never overwrite each other's output
      (C31); an exception of [os.makedirs] or [os.listdir] ends the script
      before any file ([Batch.main_setup_fails]).
    - The console: the printed text decodes back to the log when no
      printed name holds a newline (C30); a name with a newline makes one
      file print as two success lines ([Console.stdout_ambiguous]).
    - Library lemmas the claims rest on, not claims themselves: the stable
      sort is determined by its contract ([StableSort.sort_desc_characterised]);
      processing reads only the shape and the cells of the decoded image
      ([Pipeline.process_image_ext], by setoid rewriting with the [Proper]
      instances of [assign_block], [to_hsv] and [in_range] over [grid_eq]).

    ** Bounds chosen

    The float theorem C16 is proved by evaluating [SpecFloat] on every
    side length from 1 to 4096 (a few seconds of [vm_compute]); C10
    evaluates the 97 heights 1-97; C19 the 180 hues.  General float
    theorems need a rounding library this image does not have.  Every
    loop of the script runs over a finite list, so the model's loops are
    structural recursions and need no fuel.

    ** Plan for the development

    Done: every component of the script is modelled from its lines, with
    the properties above, the console text and the outline geometry.
    Next, in this order:
    - a concrete contour tracer for masks made of disjoint rectangles, to
      run the multi-region and multi-band scenarios (several boxes ranked by
      area, labels of later bands avoiding earlier ones) by evaluation;
    - the label shift across bands as a bound: after [k] placements an
      anchor lies within [30 * k] rows of its default;
    - the float computation beyond the exhaustive bounds: a rounding
      lemma for [SpecFloat] division and product by integers, to state
      C16 for every size.

    ** Not modelled

    The pixel algorithms of OpenCV (see [Backend]); the file formats read
    and written ([cv2.imread], [cv2.imwrite] are the environment [fs]);
    what [os.makedirs] creates (line 21: the model keeps only whether it
    returns or raises; the folder's existence is folded into whether
    [imwrite] succeeds); non-ASCII file names in the filter ([lower] is
    ASCII lower-casing; the console text itself is the UTF-8 bytes). *)

From Stdlib Require Import ZArith List Bool Lia Sorted.
Import ListNotations.

(** ** Notations of the development, in their own scope *)

Declare Scope cv_scope.
Delimit Scope cv_scope with cv.

(** Python's inclusive chained comparison [lo <= x <= hi], as a boolean. *)
Definition in_closed (lo x hi : Z) : bool := (lo <=? x)%Z && (x <=? hi)%Z.

(** Python's floor division [a // b] on ints is [Z.div] (both round
    toward minus infinity). *)
Notation "a // b" := (Z.div a b) (at level 40, left associativity) : cv_scope.
Notation "lo <=? x <=? hi" := (in_closed lo x hi)
  (at level 70, x at next level) : cv_scope.

Open Scope Z_scope.
Open Scope cv_scope.

(** ** Finite integer ranges, for exhaustive checks by evaluation *)

(** [zrange lo n] is Python's [range(lo, lo + n)]. *)
Fixpoint zrange (lo : Z) (n : nat) : list Z :=
  match n with
  | O => []
  | S k => lo :: zrange (lo + 1) k
  end.

(** ** The loop that stops at the first failing element

    [for x in l: if not p(x): break; ...] visits exactly [take_while p l]. *)
Fixpoint take_while {A} (p : A -> bool) (l : list A) : list A :=
  match l with
  | [] => []
  | x :: l' => if p x then x :: take_while p l' else []
  end.

(** ** Tactics of the development *)

(** Split every boolean comparison on [Z] in the goal and the context into
    its two propositional cases. *)
Ltac zcase :=
  repeat match goal with
    | |- context [Z.leb ?a ?b] => destruct (Z.leb_spec a b)
    | |- context [Z.ltb ?a ?b] => destruct (Z.ltb_spec a b)
    | |- context [Z.eqb ?a ?b] => destruct (Z.eqb_spec a b)
    | H : context [Z.leb ?a ?b] |- _ => destruct (Z.leb_spec a b)
    | H : context [Z.ltb ?a ?b] |- _ => destruct (Z.ltb_spec a b)
    | H : context [Z.eqb ?a ?b] |- _ => destruct (Z.eqb_spec a b)
    end.

(** Unfold [in_closed], split the comparisons, and close with [lia]. *)
Ltac range_lia := unfold in_closed in *; zcase; simpl in *; try discriminate; lia.

Create HintDb cv discriminated.
Create Rewrite HintDb cv_rw.

(** ** Generic lemmas shared by the components *)

Lemma in_closed_spec lo x hi : in_closed lo x hi = true <-> lo <= x <= hi.
Proof. unfold in_closed. rewrite andb_true_iff, !Z.leb_le. reflexivity. Qed.

(** Two values on the same side of a range get the same verdict. *)
Lemma in_closed_ext lo hi x y :
  (lo <= x <= hi <-> lo <= y <= hi) -> in_closed lo x hi = in_closed lo y hi.
Proof.
  intros H. destruct (in_closed lo y hi) eqn:E.
  - apply in_closed_spec. apply H. apply in_closed_spec, E.
  - destruct (in_closed lo x hi) eqn:E'; [|reflexivity].
    apply in_closed_spec in E'. apply H, in_closed_spec in E'. congruence.
Qed.

Lemma in_zrange lo n x : In x (zrange lo n) <-> lo <= x < lo + Z.of_nat n.
Proof.
  revert lo. induction n as [|n IH]; intros lo; simpl.
  - lia.
  - rewrite IH. lia.
Qed.

(** An exhaustive check by evaluation proves a bounded universal claim. *)
Lemma forallb_zrange (P : Z -> bool) lo n :
  forallb P (zrange lo n) = true -> forall x, lo <= x < lo + Z.of_nat n -> P x = true.
Proof.
  intros H x Hx. rewrite forallb_forall in H. apply H, in_zrange, Hx.
Qed.

Lemma take_while_prefix {A} (p : A -> bool) l :
  exists rest, l = take_while p l ++ rest.
Proof.
  induction l as [|x l [rest IH]]; simpl.
  - exists []. reflexivity.
  - destruct (p x).
    + exists rest. simpl. rewrite <- IH. reflexivity.
    + exists (x :: l). reflexivity.
Qed.

Lemma take_while_all {A} (p : A -> bool) l x :
  In x (take_while p l) -> p x = true.
Proof.
  induction l as [|y l IH]; simpl; [tauto|].
  destruct (p y) eqn:Hy; simpl; [|tauto].
  intros [<-|H]; auto.
Qed.

(** After the loop breaks, the element that stopped it fails [p]. *)
Lemma take_while_stop {A} (p : A -> bool) l x post :
  l = take_while p l ++ x :: post -> p x = false.
Proof.
  induction l as [|y l IH]; simpl; intros H; [discriminate|].
  destruct (p y) eqn:Hy; simpl in H.
  - injection H as H. exact (IH H).
  - injection H as -> _. exact Hy.
Qed.

Lemma take_while_length {A} (p : A -> bool) l :
  (length (take_while p l) <= length l)%nat.
Proof.
  induction l as [|x l IH]; simpl; [lia|]. destruct (p x); simpl; lia.
Qed.

Lemma filter_none {A} (p : A -> bool) l :
  (forall x, In x l -> p x = false) -> filter p l = [].
Proof.
  induction l as [|y l IH]; simpl; intros H; [reflexivity|].
  rewrite (H y (or_introl eq_refl)). apply IH. auto.
Qed.

(** On a list where [p] is downward closed along the order of the list
    (whatever fails [p] is followed only by elements that fail it), breaking
    at the first failure is the same as filtering. *)
Lemma take_while_filter {A} (p : A -> bool) l :
  StronglySorted (fun a b => p b = true -> p a = true) l ->
  take_while p l = filter p l.
Proof.
  induction l as [|x l IH]; simpl; intros Hs; [reflexivity|].
  apply StronglySorted_inv in Hs as [Hs Hall].
  destruct (p x) eqn:Hx.
  - rewrite IH by exact Hs. reflexivity.
  - symmetry. apply filter_none. intros y Hy.
    rewrite Forall_forall in Hall. specialize (Hall y Hy).
    destruct (p y) eqn:Hpy; [|reflexivity].
    discriminate (Hall eq_refl).
Qed.

Lemma StronglySorted_impl {A} (R R' : A -> A -> Prop) l :
  (forall a b, R a b -> R' a b) -> StronglySorted R l -> StronglySorted R' l.
Proof.
  intros HR. induction l as [|x l IH]; intros Hs; constructor;
    apply StronglySorted_inv in Hs as [Hs Hall]; auto.
  eapply Forall_impl; [|exact Hall]. auto.
Qed.

Lemma take_while_incl {A} (p : A -> bool) l x : In x (take_while p l) -> In x l.
Proof.
  induction l as [|y l IH]; simpl; [tauto|].
  destruct (p y); simpl; [intros [<-|H]; auto | tauto].
Qed.

Lemma take_while_sorted {A} (R : A -> A -> Prop) (p : A -> bool) l :
  StronglySorted R l -> StronglySorted R (take_while p l).
Proof.
  induction l as [|x l IH]; simpl; intros Hs; [constructor|].
  apply StronglySorted_inv in Hs as [Hs Hall].
  destruct (p x); constructor; auto.
  rewrite Forall_forall in *. intros y Hy. apply Hall. eapply take_while_incl; eauto.
Qed.

(** A property kept by every step of a [fold_left] over [l] holds of its
    result. *)
Lemma fold_left_invariant {A B} (P : B -> Prop) (f : B -> A -> B) l acc :
  P acc -> (forall b x, In x l -> P b -> P (f b x)) -> P (fold_left f l acc).
Proof.
  revert acc. induction l as [|x l IH]; simpl; intros acc Hacc Hf; [exact Hacc|].
  apply IH; auto.
Qed.

(** A property that one step of a [fold_left] establishes and every later
    step keeps holds of its result. *)
Lemma fold_left_reaches {A B} (Q : B -> Prop) (f : B -> A -> B) l x acc :
  In x l -> (forall b y, Q b -> Q (f b y)) -> (forall b, Q (f b x)) -> Q (fold_left f l acc).
Proof.
  revert acc. induction l as [|y l IH]; simpl; intros acc Hx Hkeep Hset; [tauto|].
  destruct Hx as [<-|Hx].
  - apply fold_left_invariant; auto.
  - apply IH; auto.
Qed.

(** Folding two step functions that agree on the elements of [l]. *)
Lemma fold_left_ext_in {A B} (f g : B -> A -> B) l acc :
  (forall b x, In x l -> f b x = g b x) -> fold_left f l acc = fold_left g l acc.
Proof.
  revert acc. induction l as [|x l IH]; simpl; intros acc H; [reflexivity|].
  rewrite H by auto. apply IH. auto.
Qed.

#[export] Hint Resolve take_while_all take_while_length take_while_incl : cv.
#[export] Hint Rewrite in_closed_spec : cv_rw.
