(* ===== verification/Config.v ===== *)
(** * The configuration constants of [src/y.py]

    The module-level globals of the script: the ordered colour table
    [color_names] (a Python dict, iterated in insertion order), the minimum
    region area [min_area] and the canvas size [standard_width] x
    [standard_height].  The directory paths of lines 19-20 are filesystem
    arguments and are defined in [Batch]. *)

From Stdlib Require Import ZArith List String.
From S2P Require Import Prelude.
Import ListNotations.
Open Scope Z_scope.

(** An HSV bound as the script writes it: a 3-tuple [(h, s, v)]. *)
Definition hsv_bound := (Z * Z * Z)%type.

(** One entry of the dict: [name : (lower, upper)]. *)
Definition band := (string * (hsv_bound * hsv_bound))%type.

Definition band_name (b : band) : string := fst b.
Definition band_lower (b : band) : hsv_bound := fst (snd b).
Definition band_upper (b : band) : hsv_bound := snd (snd b).

(** [color_names.items()], in the insertion order of the dict literal. *)
Definition color_names : list band :=
  [ ("Red",    ((0, 100, 100),   (10, 255, 255)));
    ("Orange", ((10, 150, 150),  (25, 255, 255)));
    ("Yellow", ((25, 150, 150),  (40, 255, 255)));
    ("Green",  ((35, 100, 100),  (85, 255, 255)));
    ("Cyan",   ((85, 100, 100),  (95, 255, 255)));
    ("Blue",   ((90, 100, 100),  (140, 255, 255)));
    ("Purple", ((130, 100, 100), (150, 255, 255)));
    ("Pink",   ((145, 80, 180),  (170, 200, 255))) ]%string.

Definition min_area : Z := 7000.

Definition standard_width : Z := 800.
Definition standard_height : Z := 800.
