(* ===== verification/PyFloat.v ===== *)
(** * Python's [float]: IEEE 754 binary64, through Stdlib's [SpecFloat]

    Lines 40-44 of [src/y.py] compute the resize factor with Python floats:
    [standard_width / width] is a true division of two ints (correctly
    rounded, hence the binary64 quotient of the two exactly converted ints),
    [width * scale] a float product, [min] the first of its smallest
    arguments and [int(...)] a truncation toward zero.  [SpecFloat] is the
    executable specification of binary64 of the Standard Library (the one the
    kernel's primitive floats are proved against); it computes by
    [vm_compute] and needs no axiom. *)

From Stdlib Require Import ZArith Floats.SpecFloat.
From S2P Require Import Prelude.
Open Scope Z_scope.

(** binary64: 53 bits of precision, largest exponent 1024. *)
Definition prec : Z := 53.
Definition emax : Z := 1024.

Definition py_float := spec_float.

(** [float(n)] for an int [n]: exact below 2^53, rounded to nearest even
    above. *)
Definition float_of_int (n : Z) : py_float := binary_normalize prec emax n 0 false.

Definition fdiv : py_float -> py_float -> py_float := SFdiv prec emax.
Definition fmul : py_float -> py_float -> py_float := SFmul prec emax.
Definition fltb : py_float -> py_float -> bool := SFltb.

(** [a / b] on two Python ints; [None] is the [ZeroDivisionError]. *)
Definition int_truediv (a b : Z) : option py_float :=
  if b =? 0 then None else Some (fdiv (float_of_int a) (float_of_int b)).

(** Builtin [min(a, b)]: [b] replaces [a] only when [b < a]. *)
Definition py_min (a b : py_float) : py_float := if fltb b a then b else a.

(** [int(f)]: truncation toward zero; [None] is the [OverflowError] or
    [ValueError] raised on an infinity or a NaN. *)
Definition py_int (f : py_float) : option Z :=
  match f with
  | S754_zero _ => Some 0
  | S754_finite s m e =>
      let a := if 0 <=? e then Z.pos m * 2 ^ e else Z.pos m / 2 ^ (- e) in
      Some (if s then - a else a)
  | S754_infinity _ | S754_nan => None
  end.

(** [int(n * f)] for an int [n] and a float [f]. *)
Definition int_mul_trunc (n : Z) (f : py_float) : option Z :=
  py_int (fmul (float_of_int n) f).

Lemma py_min_cases a b : py_min a b = a \/ py_min a b = b.
Proof. unfold py_min. destruct (fltb b a); auto. Qed.

Lemma int_truediv_zero a : int_truediv a 0 = None.
Proof. reflexivity. Qed.
