(* ===== verification/Image.v ===== *)
(** * numpy arrays as the script uses them

    An image is a numpy array of shape [(rows, cols, 3)] and dtype uint8 (a
    BGR pixel per cell); a mask is a single-channel array.  Both are modelled
    as a [grid]: its shape and the function from [(row, col)] to the cell.
    Two grids with the same shape that agree on every in-bounds cell are the
    same array: [grid_eq] is that equivalence, and the operations below
    respect it ([Proper] instances).

    The operations are the ones of lines 48 and 51 of [src/y.py]:
    [np.zeros] and the slice assignment [dst[y0:y1, x0:x1] = src], with
    Python's slice bounds and numpy's shape check (a [ValueError] when the
    shapes differ). *)

From Stdlib Require Import ZArith Bool Lia Morphisms RelationClasses.
From S2P Require Import Prelude.
Open Scope Z_scope.

(** A BGR pixel, each channel in [0, 255]. *)
Definition bgr := (Z * Z * Z)%type.

Definition black : bgr := (0, 0, 0).

Record grid (A : Type) := mk_grid {
  rows : Z;
  cols : Z;
  at_ : Z -> Z -> A
}.
Arguments mk_grid {A}.
Arguments rows {A}.
Arguments cols {A}.
Arguments at_ {A}.

Definition image := grid bgr.
Definition mask := grid bool.

Definition in_bounds {A} (g : grid A) (r c : Z) : Prop :=
  0 <= r < rows g /\ 0 <= c < cols g.

(** The same array: same shape, same cells within the shape. *)
Definition grid_eq {A} (g1 g2 : grid A) : Prop :=
  rows g1 = rows g2 /\ cols g1 = cols g2 /\
  forall r c, in_bounds g1 r c -> at_ g1 r c = at_ g2 r c.

(** Python exceptions the script can raise and does not catch. *)
Inductive exn :=
| ValueError          (** numpy: shapes do not match in an assignment *)
| ZeroDivisionError
| OverflowError       (** [int()] of an infinity or a NaN *)
| Cv2Error            (** an OpenCV assertion, e.g. an empty resize target *)
| OSError.            (** [os.makedirs] or [os.listdir] failing on the filesystem *)

(** The outcome of code that may raise. *)
Inductive outcome (A : Type) :=
| Ok (a : A)
| Raise (e : exn).
Arguments Ok {A}.
Arguments Raise {A}.

Definition obind {A B} (o : outcome A) (k : A -> outcome B) : outcome B :=
  match o with
  | Ok a => k a
  | Raise e => Raise e
  end.

Notation "'let*' x := o 'in' k" := (obind o (fun x => k))
  (at level 10, x name, o at level 100, k at level 200) : cv_scope.

(** Two outcomes that agree: both succeed with related values, or both
    raise the same exception. *)
Definition outcome_rel {A} (R : A -> A -> Prop) (o1 o2 : outcome A) : Prop :=
  match o1, o2 with
  | Ok a1, Ok a2 => R a1 a2
  | Raise e1, Raise e2 => e1 = e2
  | _, _ => False
  end.

(** [np.zeros((h, w, 3), dtype=np.uint8)]. *)
Definition zeros (h w : Z) : image := mk_grid h w (fun _ _ => black).

(** Python's normalisation of a slice bound against a length [n]
    (step 1): a negative index counts from the end, and both ends are
    clamped to [0, n]. *)
Definition slice_index (i n : Z) : Z :=
  if i <? 0 then Z.max 0 (i + n) else Z.min i n.

(** The number of cells of [a[start:stop]] along an axis of length [n]. *)
Definition slice_len (start stop n : Z) : Z :=
  Z.max 0 (slice_index stop n - slice_index start n).

(** [dst[y0:y1, x0:x1] = src]: a [ValueError] unless the selected block
    has exactly the shape of [src]; otherwise the block is overwritten. *)
Definition assign_block {A} (dst : grid A) (y0 y1 x0 x1 : Z) (src : grid A)
    : outcome (grid A) :=
  let ys := slice_index y0 (rows dst) in
  let xs := slice_index x0 (cols dst) in
  if (slice_len y0 y1 (rows dst) =? rows src) &&
     (slice_len x0 x1 (cols dst) =? cols src)
  then Ok (mk_grid (rows dst) (cols dst) (fun r c =>
         if (ys <=? r) && (r <? ys + rows src) && (xs <=? c) && (c <? xs + cols src)
         then at_ src (r - ys) (c - xs)
         else at_ dst r c))
  else Raise ValueError.

(** ** The array equivalence *)

#[export] Instance grid_eq_equiv {A} : Equivalence (@grid_eq A).
Proof.
  split.
  - intros g. unfold grid_eq. auto.
  - intros g1 g2 (Hr & Hc & H). repeat split; try congruence.
    intros r c Hb. symmetry. apply H. unfold in_bounds in *. lia.
  - intros g1 g2 g3 (Hr & Hc & H) (Hr' & Hc' & H'). repeat split; try congruence.
    intros r c Hb. rewrite H by exact Hb. apply H'. unfold in_bounds in *. lia.
Qed.

(** The slice assignment reads only the cells of its arrays. *)
#[export] Instance assign_block_proper {A} :
  Proper (grid_eq ==> eq ==> eq ==> eq ==> eq ==> grid_eq ==> outcome_rel grid_eq) (@assign_block A).
Proof.
  intros d1 d2 (Dr & Dc & D) y0 ? <- y1 ? <- x0 ? <- x1 ? <- s1 s2 (Sr & Sc & S).
  unfold assign_block. rewrite Dr, Dc, Sr, Sc.
  destruct (_ && _); simpl; [|reflexivity].
  split; [reflexivity|]. split; [reflexivity|]. intros r c Hb. unfold in_bounds in Hb. simpl in *.
  zcase; simpl; first [apply S; unfold in_bounds; lia | apply D; unfold in_bounds; lia].
Qed.

(** ** The slice assignment *)

Lemma slice_index_in i n : 0 <= i <= n -> slice_index i n = i.
Proof. intros. unfold slice_index. zcase; lia. Qed.

Lemma assign_block_shape {A} (dst src g : grid A) y0 y1 x0 x1 :
  assign_block dst y0 y1 x0 x1 src = Ok g -> rows g = rows dst /\ cols g = cols dst.
Proof.
  unfold assign_block. destruct (_ && _); intros E; inversion E; auto.
Qed.

(** A block that fits inside [dst] is written where it is placed. *)
Lemma assign_block_fits {A} (dst src : grid A) y0 x0 nr nc :
  rows src = nr -> cols src = nc ->
  0 <= y0 -> 0 <= nr -> y0 + nr <= rows dst ->
  0 <= x0 -> 0 <= nc -> x0 + nc <= cols dst ->
  assign_block dst y0 (y0 + nr) x0 (x0 + nc) src =
  Ok (mk_grid (rows dst) (cols dst) (fun r c =>
        if (y0 <=? r) && (r <? y0 + nr) && (x0 <=? c) && (c <? x0 + nc)
        then at_ src (r - y0) (c - x0)
        else at_ dst r c)).
Proof.
  intros <- <- Hy0 Hnr Hy1 Hx0 Hnc Hx1. unfold assign_block, slice_len.
  rewrite !slice_index_in by lia.
  rewrite (proj2 (Z.eqb_eq _ _)) by lia. rewrite (proj2 (Z.eqb_eq _ _)) by lia.
  reflexivity.
Qed.
