(* ===== verification/Backend.v ===== *)
(** * The OpenCV calls of [src/y.py], as an interface

    The script calls OpenCV routines whose pixel-level algorithms are
    library code, not code of the repository: [cv2.resize] with
    [INTER_AREA] (line 45), [cv2.cvtColor] with [COLOR_BGR2HSV] (line 54,
    a per-pixel conversion), [cv2.findContours] with [RETR_EXTERNAL] and
    [CHAIN_APPROX_SIMPLE] (line 66) and [cv2.getTextSize] with
    [FONT_HERSHEY_SIMPLEX], scale 0.6, thickness 2 (line 92), and the
    rasterisation of [cv2.rectangle] and [cv2.putText].  The class
    [CvBackend] names them; the components are written against it, and the
    facts about OpenCV a theorem relies on are the fields of [CvLaws],
    stated as hypotheses of that theorem.  The OpenCV routines that the
    script's decisions depend on in a simple way ([cv2.inRange],
    [cv2.contourArea], [cv2.boundingRect]) are modelled in full in
    [ColorSegmenter] and [RegionExtractor]. *)

From Stdlib Require Import ZArith List String Bool.
From S2P Require Import Prelude Image.
Import ListNotations.
Open Scope Z_scope.

(** An OpenCV point [(x, y)]: [x] is the column, [y] the row. *)
Definition point := (Z * Z)%type.

(** A contour as [findContours] returns it: its vertices in order. *)
Definition contour := list point.

(** The drawing calls the script makes on the canvas (lines 79, 93-94 and
    97-98), with their arguments; the font is always
    [FONT_HERSHEY_SIMPLEX] at scale 0.6. *)
Inductive draw_op :=
| Rectangle (pt1 pt2 : point) (color : bgr) (thickness : Z)  (** [cv2.rectangle] *)
| PutText (text : string) (org : point) (color : bgr) (thickness : Z).  (** [cv2.putText] *)

Class CvBackend := {
  (** [cv2.resize(img, (w, h), interpolation=cv2.INTER_AREA)], for a
      non-empty target size. *)
  cv_resize : image -> Z -> Z -> image;
  (** The per-pixel map of [cv2.cvtColor(., cv2.COLOR_BGR2HSV)]. *)
  cv_bgr2hsv : bgr -> bgr;
  (** [cv2.findContours(mask, RETR_EXTERNAL, CHAIN_APPROX_SIMPLE)[0]]. *)
  cv_find_contours : mask -> list contour;
  (** [cv2.getTextSize(text, FONT_HERSHEY_SIMPLEX, 0.6, 2)[0]]:
      [(width, height)]. *)
  cv_text_size : string -> Z * Z;
  (** The in-place effect of one drawing call on the canvas. *)
  cv_draw : image -> draw_op -> image
}.

(** The four corners [CHAIN_APPROX_SIMPLE] keeps of a filled rectangle of
    pixels from [(x0, y0)] to [(x1, y1)], in the order [findContours]
    traces them. *)
Definition rect_contour (x0 y0 x1 y1 : Z) : contour :=
  [(x0, y0); (x0, y1); (x1, y1); (x1, y0)].

(** The set cells of a mask are exactly the rectangle [x0..x1] x [y0..y1]. *)
Definition mask_is_rect (m : mask) (x0 y0 x1 y1 : Z) : Prop :=
  forall r c, in_bounds m r c ->
    at_ m r c = ((y0 <=? r) && (r <=? y1) && (x0 <=? c) && (c <=? x1))%bool.

(** The facts about OpenCV that the theorems use. *)
Record CvLaws `{CvBackend} : Prop := {
  (** The resized image has the requested shape. *)
  law_resize_shape : forall img w h, 0 < w -> 0 < h ->
    rows (cv_resize img w h) = h /\ cols (cv_resize img w h) = w;
  (** Contour vertices are pixels of the mask. *)
  law_contour_in_mask : forall m c p, In c (cv_find_contours m) -> In p c ->
    0 <= fst p < cols m /\ 0 <= snd p < rows m;
  (** A contour has at least one vertex. *)
  law_contour_nonempty : forall m c, In c (cv_find_contours m) -> c <> [];
  (** The text extent is not negative. *)
  law_text_size_nonneg : forall s,
    0 <= fst (cv_text_size s) /\ 0 <= snd (cv_text_size s);
  (** A mask with no set pixel has no contour. *)
  law_contours_empty : forall m,
    (forall r c, in_bounds m r c -> at_ m r c = false) -> cv_find_contours m = [];
  (** A mask whose set pixels form one filled rectangle, at least two
      pixels wide and tall, has one contour: its four corners. *)
  law_contours_rect : forall m x0 y0 x1 y1,
    0 <= x0 < x1 -> x1 < cols m -> 0 <= y0 < y1 -> y1 < rows m ->
    mask_is_rect m x0 y0 x1 y1 -> cv_find_contours m = [rect_contour x0 y0 x1 y1];
  (** Drawing changes pixels, never the shape of the array. *)
  law_draw_shape : forall img op,
    rows (cv_draw img op) = rows img /\ cols (cv_draw img op) = cols img;
  (** The routines read only the cells of their arrays: arrays equal as
      arrays ([grid_eq]) give equal results. *)
  law_resize_ext : forall img1 img2 w h,
    0 < rows img1 -> 0 < cols img1 -> 0 < w -> 0 < h -> grid_eq img1 img2 ->
    grid_eq (cv_resize img1 w h) (cv_resize img2 w h);
  law_contours_ext : forall m1 m2, grid_eq m1 m2 -> cv_find_contours m1 = cv_find_contours m2;
  law_draw_ext : forall img1 img2 op, grid_eq img1 img2 -> grid_eq (cv_draw img1 op) (cv_draw img2 op)
}.
