(* ===== verification/ToyBackend.v ===== *)
(** * A concrete [CvBackend], for running the model on concrete inputs

    The theorems of the development hold for every backend that satisfies
    the [CvLaws] they assume; this instance exists so that witnesses can
    evaluate the model.  It is not OpenCV: its resize is nearest-neighbour
    (OpenCV's [INTER_AREA] averages), its colour conversion is the
    textbook 8-bit HSV formula of the OpenCV documentation rounded to
    nearest, its contour finder returns the four corners of the bounding
    rectangle of all set pixels (which is what OpenCV returns exactly when
    the set pixels form one filled rectangle), and its text extent is a
    fixed cell per character; it draws rectangles as one-pixel borders
    or filled blocks and does not rasterise text. *)

From Stdlib Require Import ZArith List String Bool Lia.
From S2P Require Import Prelude Image Backend.
Import ListNotations.
Open Scope Z_scope.

(** Nearest neighbour: target cell [(r, c)] reads source cell
    [(r * rows / h, c * cols / w)]. *)
Definition toy_resize (img : image) (w h : Z) : image :=
  mk_grid h w (fun r c => at_ img (r * rows img / h) (c * cols img / w)).

(** Rounded quotient [round(n / d)] for [n >= 0], [d > 0]. *)
Definition round_div (n d : Z) : Z := (2 * n + d) / (2 * d).

(** 8-bit HSV: [V = max], [S = 255 (V - min) / V],
    [H = (60 * ...) / 2] in [0, 180). *)
Definition toy_bgr2hsv (p : bgr) : bgr :=
  let '(b, g, r) := p in
  let v := Z.max b (Z.max g r) in
  let mn := Z.min b (Z.min g r) in
  let d := v - mn in
  let s := if v =? 0 then 0 else round_div (255 * d) v in
  let h2 :=
    if d =? 0 then 0
    else if v =? r then 30 * (g - b) / d
    else if v =? g then 60 + 30 * (b - r) / d
    else 120 + 30 * (r - g) / d in
  let h := if h2 <? 0 then h2 + 180 else h2 in
  (h, s, v).

(** Bounding box [(x0, y0, x1, y1)] of the set cells of a mask, if any,
    scanning row by row. *)
Definition bbox_step (m : mask) (r : Z) (acc : option (Z * Z * Z * Z)) (c : Z)
    : option (Z * Z * Z * Z) :=
  if at_ m r c then
    match acc with
    | None => Some (c, r, c, r)
    | Some (x0, y0, x1, y1) => Some (Z.min x0 c, Z.min y0 r, Z.max x1 c, Z.max y1 r)
    end
  else acc.

Definition bbox_row (m : mask) (acc : option (Z * Z * Z * Z)) (r : Z) : option (Z * Z * Z * Z) :=
  fold_left (bbox_step m r) (zrange 0 (Z.to_nat (cols m))) acc.

Definition mask_bbox (m : mask) : option (Z * Z * Z * Z) :=
  fold_left (bbox_row m) (zrange 0 (Z.to_nat (rows m))) None.

Definition toy_find_contours (m : mask) : list contour :=
  match mask_bbox m with
  | None => []
  | Some (x0, y0, x1, y1) => [[(x0, y0); (x0, y1); (x1, y1); (x1, y0)]]
  end.

(** Twelve pixels per character, seventeen high. *)
Definition toy_text_size (s : string) : Z * Z := (12 * Z.of_nat (String.length s), 17).

(** Rectangles: filled for a negative thickness, else their one-pixel
    border; text is not rasterised. *)
Definition toy_draw (img : image) (op : draw_op) : image :=
  match op with
  | Rectangle (x1, y1) (x2, y2) color thickness =>
      mk_grid (rows img) (cols img) (fun r c =>
        let inside := (y1 <=? r <=? y2) && (x1 <=? c <=? x2) in
        let border := (r =? y1) || (r =? y2) || (c =? x1) || (c =? x2) in
        if inside && ((thickness <? 0) || border) then color else at_ img r c)
  | PutText _ _ _ _ => img
  end.

#[export] Instance toy_backend : CvBackend := {
  cv_resize := toy_resize;
  cv_bgr2hsv := toy_bgr2hsv;
  cv_find_contours := toy_find_contours;
  cv_text_size := toy_text_size;
  cv_draw := toy_draw
}.

(** ** The toy backend satisfies the laws *)

Definition bbox_in (m : mask) (acc : option (Z * Z * Z * Z)) : Prop :=
  match acc with
  | None => True
  | Some (x0, y0, x1, y1) =>
      0 <= x0 < cols m /\ 0 <= x1 < cols m /\ 0 <= y0 < rows m /\ 0 <= y1 < rows m
  end.

Definition box_has (acc : option (Z * Z * Z * Z)) (c r : Z) : Prop :=
  match acc with
  | None => False
  | Some (x0, y0, x1, y1) => x0 <= c <= x1 /\ y0 <= r <= y1
  end.

Definition box_in_rect (x0 y0 x1 y1 : Z) (acc : option (Z * Z * Z * Z)) : Prop :=
  match acc with
  | None => True
  | Some (a, b, c, d) => x0 <= a /\ c <= x1 /\ y0 <= b /\ d <= y1
  end.

Lemma mask_bbox_in m : bbox_in m (mask_bbox m).
Proof.
  unfold mask_bbox. apply fold_left_invariant; [exact I|].
  intros acc r Hr Hacc. apply in_zrange in Hr. unfold bbox_row.
  apply fold_left_invariant; [exact Hacc|].
  intros acc' c Hc Hacc'. apply in_zrange in Hc. unfold bbox_step.
  destruct (at_ m r c); [|exact Hacc'].
  destruct acc' as [[[[x0 y0] x1] y1]|]; simpl in *; lia.
Qed.

Lemma bbox_step_keeps m r c acc c0 r0 :
  box_has acc c0 r0 -> box_has (bbox_step m r acc c) c0 r0.
Proof.
  unfold bbox_step. destruct (at_ m r c); [|auto].
  destruct acc as [[[[x0 y0] x1] y1]|]; simpl; [lia | tauto].
Qed.

Lemma bbox_row_keeps m r acc c0 r0 :
  box_has acc c0 r0 -> box_has (bbox_row m acc r) c0 r0.
Proof.
  intros H. unfold bbox_row. apply fold_left_invariant; [exact H|].
  intros b c _. apply bbox_step_keeps.
Qed.

(** Every set cell of the mask is in its bounding box. *)
Lemma mask_bbox_has m r c :
  in_bounds m r c -> at_ m r c = true -> box_has (mask_bbox m) c r.
Proof.
  intros [Hr Hc] Hset. unfold mask_bbox.
  apply (fold_left_reaches (fun acc => box_has acc c r) _ _ r); [apply in_zrange; lia | intros; apply bbox_row_keeps; auto |].
  intros b. unfold bbox_row.
  apply (fold_left_reaches (fun acc => box_has acc c r) _ _ c); [apply in_zrange; lia | intros; apply bbox_step_keeps; auto |].
  intros b'. unfold bbox_step. rewrite Hset.
  destruct b' as [[[[x0 y0] x1] y1]|]; simpl; lia.
Qed.

Lemma mask_bbox_empty m :
  (forall r c, in_bounds m r c -> at_ m r c = false) -> mask_bbox m = None.
Proof.
  intros H. unfold mask_bbox. apply fold_left_invariant; [reflexivity|].
  intros acc r Hr ->. apply in_zrange in Hr. unfold bbox_row.
  apply fold_left_invariant; [reflexivity|].
  intros acc c Hc ->. apply in_zrange in Hc. unfold bbox_step.
  rewrite H; [reflexivity | unfold in_bounds; lia].
Qed.

Lemma mask_bbox_in_rect m x0 y0 x1 y1 :
  mask_is_rect m x0 y0 x1 y1 -> box_in_rect x0 y0 x1 y1 (mask_bbox m).
Proof.
  intros Hm. unfold mask_bbox. apply fold_left_invariant; [exact I|].
  intros acc r Hr Hacc. apply in_zrange in Hr. unfold bbox_row.
  apply fold_left_invariant; [exact Hacc|].
  intros acc' c Hc Hacc'. apply in_zrange in Hc. unfold bbox_step.
  rewrite Hm by (unfold in_bounds; lia).
  destruct (Z.leb_spec y0 r), (Z.leb_spec r y1), (Z.leb_spec x0 c), (Z.leb_spec c x1);
    simpl; try exact Hacc'.
  destruct acc' as [[[[a b] c'] d]|]; simpl in *; lia.
Qed.

Lemma mask_bbox_rect m x0 y0 x1 y1 :
  0 <= x0 <= x1 -> x1 < cols m -> 0 <= y0 <= y1 -> y1 < rows m ->
  mask_is_rect m x0 y0 x1 y1 -> mask_bbox m = Some (x0, y0, x1, y1).
Proof.
  intros Hx Hx1 Hy Hy1 Hm.
  assert (H0 : box_has (mask_bbox m) x0 y0).
  { apply mask_bbox_has; [unfold in_bounds; lia|]. rewrite Hm by (unfold in_bounds; lia).
    zcase; try lia; reflexivity. }
  assert (H1 : box_has (mask_bbox m) x1 y1).
  { apply mask_bbox_has; [unfold in_bounds; lia|]. rewrite Hm by (unfold in_bounds; lia).
    zcase; try lia; reflexivity. }
  pose proof (mask_bbox_in_rect m x0 y0 x1 y1 Hm) as Hr.
  destruct (mask_bbox m) as [[[[a b] c] d]|]; simpl in *; [|tauto].
  f_equal. repeat f_equal; lia.
Qed.

Lemma toy_resize_ext img1 img2 w h :
  0 < rows img1 -> 0 < cols img1 -> 0 < w -> 0 < h -> grid_eq img1 img2 ->
  grid_eq (toy_resize img1 w h) (toy_resize img2 w h).
Proof.
  intros Hr Hc Hw Hh (Er & Ec & E). unfold toy_resize. repeat split; simpl; [reflexivity..|].
  intros r c [Hr' Hc']. simpl in Hr', Hc'. rewrite <- Er, <- Ec. apply E. unfold in_bounds.
  split; split.
  - apply Z.div_pos; nia.
  - apply Z.div_lt_upper_bound; nia.
  - apply Z.div_pos; nia.
  - apply Z.div_lt_upper_bound; nia.
Qed.

Lemma mask_bbox_ext m1 m2 : grid_eq m1 m2 -> mask_bbox m1 = mask_bbox m2.
Proof.
  intros (Er & Ec & E). unfold mask_bbox, bbox_row. rewrite Er, Ec.
  apply fold_left_ext_in. intros acc r Hr. apply in_zrange in Hr.
  apply fold_left_ext_in. intros acc' c Hc. apply in_zrange in Hc.
  unfold bbox_step. rewrite E; [reflexivity | unfold in_bounds; lia].
Qed.

Lemma toy_draw_ext img1 img2 op : grid_eq img1 img2 -> grid_eq (toy_draw img1 op) (toy_draw img2 op).
Proof.
  intros (Er & Ec & E). destruct op as [[x1 y1] [x2 y2] color t|]; [|split; auto].
  simpl. repeat split; simpl; auto. intros r c Hb. destruct (_ && _); [reflexivity|].
  apply E, Hb.
Qed.

Lemma toy_laws : CvLaws.
Proof.
  split.
  - intros img w h _ _. split; reflexivity.
  - intros m c p. simpl. unfold toy_find_contours.
    pose proof (mask_bbox_in m) as Hb.
    destruct (mask_bbox m) as [[[[x0 y0] x1] y1]|]; simpl in *; [|tauto].
    intros [<-|[]]. simpl. intros Hp.
    repeat destruct Hp as [<-|Hp]; simpl; try lia; destruct Hp.
  - intros m c. simpl. unfold toy_find_contours.
    destruct (mask_bbox m) as [[[[x0 y0] x1] y1]|]; simpl; [|tauto].
    intros [<-|[]]. discriminate.
  - intros s. cbn [cv_text_size toy_backend]. unfold toy_text_size. cbn [fst snd]. lia.
  - intros m Hm. simpl. unfold toy_find_contours. rewrite mask_bbox_empty by exact Hm.
    reflexivity.
  - intros m x0 y0 x1 y1 Hx Hx1 Hy Hy1 Hm. simpl. unfold toy_find_contours.
    rewrite (mask_bbox_rect m x0 y0 x1 y1) by (assumption || lia). reflexivity.
  - intros img [[x1 y1] [x2 y2] color t|]; split; reflexivity.
  - exact toy_resize_ext.
  - intros m1 m2 E. simpl. unfold toy_find_contours. rewrite (mask_bbox_ext m1 m2 E). reflexivity.
  - exact toy_draw_ext.
Qed.
