(* ===== verification/Normalizer.v ===== *)
(** * Normalizer: lines 38-51 of [src/y.py]

    The resize factor is computed in Python floats ([PyFloat]), the source
    is resized with [cv2.resize] (an error for an empty target), and the
    result is pasted, centred with floor-divided offsets, into a black
    800 x 800 canvas by a numpy slice assignment ([Image.assign_block]).
    [spec_dims] is the exact-arithmetic target of the spec (section 4.1),
    against which the float computation is compared. *)

From Stdlib Require Import ZArith List Bool Lia.
From S2P Require Import Prelude Config PyFloat Image Backend ToyBackend.
Import ListNotations.
Open Scope Z_scope.

Section Normalizer.
Context `{CvBackend}.

(** Lines 39-44: [(new_width, new_height)] from [(height, width)]. *)
Definition resize_dims (height width : Z) : outcome (Z * Z) :=
  match int_truediv standard_width width with
  | None => Raise ZeroDivisionError
  | Some scale_width =>
    match int_truediv standard_height height with
    | None => Raise ZeroDivisionError
    | Some scale_height =>
      let scale := py_min scale_width scale_height in
      match int_mul_trunc width scale, int_mul_trunc height scale with
      | Some new_width, Some new_height => Ok (new_width, new_height)
      | _, _ => Raise OverflowError
      end
    end
  end.

(** Line 45: [cv2.resize] asserts that the target size is not empty. *)
Definition resize (img : image) (new_width new_height : Z) : outcome image :=
  if (new_width <=? 0) || (new_height <=? 0) then Raise Cv2Error
  else Ok (cv_resize img new_width new_height).

(** Lines 49-50. *)
Definition x_offset (new_width : Z) : Z := (standard_width - new_width) // 2.
Definition y_offset (new_height : Z) : Z := (standard_height - new_height) // 2.

(** Lines 39-51: from the decoded image to the padded canvas. *)
Definition normalize (img : image) : outcome image :=
  let height := rows img in
  let width := cols img in
  let* dims := resize_dims height width in
  let new_width := fst dims in
  let new_height := snd dims in
  let* resized_image := resize img new_width new_height in
  let padded_image := zeros standard_height standard_width in
  let xo := x_offset new_width in
  let yo := y_offset new_height in
  assign_block padded_image yo (yo + new_height) xo (xo + new_width) resized_image.

End Normalizer.

(** The target size of the spec, in exact arithmetic:
    [scale = min(800 / width, 800 / height) = 800 / max(width, height)]. *)
Definition spec_dims (height width : Z) : Z * Z :=
  (standard_width * width // Z.max width height,
   standard_height * height // Z.max width height).

(** The long side as the float code computes it when its factor wins the
    [min]: [int(n * (800 / n))]. *)
Definition long_side (n : Z) : option Z :=
  match int_truediv 800 n with
  | Some s => int_mul_trunc n s
  | None => None
  end.

(** Sample sources for the witnesses: 97 x 50 red, and 1000 x 1. *)
Definition sample_97x50 : image := mk_grid 50 97 (fun _ _ => (0, 0, 255)).
Definition sample_1000x1 : image := mk_grid 1 1000 (fun _ _ => (0, 0, 255)).

(** The exhaustive checks behind the bounded float theorems. *)
Definition long_side_ok (n : Z) : bool :=
  match long_side n with Some v => 799 <=? v <=? 800 | None => false end.

Definition width97_ok (h : Z) : bool :=
  match resize_dims h 97 with
  | Ok (nw, nh) => (nw =? 799) && (1 <=? nh <=? 800)
  | Raise _ => false
  end.

(** ** Offsets *)

(** The floor-divided offset centres a side of length [n] in [0, total]:
    the left margin is the right one or one less. *)
Lemma offset_centred total n :
  0 <= n <= total ->
  0 <= (total - n) // 2 /\ (total - n) // 2 + n <= total /\
  (total - n) // 2 <= total - n - (total - n) // 2 <= (total - n) // 2 + 1.
Proof. intros. pose proof (Z.div_mod (total - n) 2). pose proof (Z.mod_pos_bound (total - n) 2). lia. Qed.

(** ** The float computation of the target size *)

(** Which factor won the [min]: the width of the target is [int] of the
    product with the winner. *)
Lemma resize_dims_inv h w nw nh :
  resize_dims h w = Ok (nw, nh) ->
  exists sw sh, int_truediv standard_width w = Some sw /\
    int_truediv standard_height h = Some sh /\
    int_mul_trunc w (py_min sw sh) = Some nw /\
    int_mul_trunc h (py_min sw sh) = Some nh.
Proof.
  unfold resize_dims.
  destruct (int_truediv standard_width w) as [sw|]; [|discriminate].
  destruct (int_truediv standard_height h) as [sh|]; [|discriminate].
  destruct (int_mul_trunc w _) eqn:E1; [|discriminate].
  destruct (int_mul_trunc h _) eqn:E2; [|discriminate].
  intros E; inversion E; subst. eauto 7.
Qed.

Lemma long_side_of_min w sw s n :
  int_truediv standard_width w = Some sw ->
  int_mul_trunc w s = Some n -> s = sw -> long_side w = Some n.
Proof. unfold long_side. intros Hw Hn ->. change 800 with standard_width. rewrite Hw. exact Hn. Qed.

Lemma long_side_ok_spec n : long_side_ok n = true -> exists v, long_side n = Some v /\ 799 <= v <= 800.
Proof.
  unfold long_side_ok. destruct (long_side n) as [v|]; [|discriminate].
  intros Hv. autorewrite with cv_rw in Hv. exists v. split; [reflexivity | exact Hv].
Qed.

(** Every side length from 1 to 4096 pixels: the float computation
    [int(n * (800 / n))] of the long side gives 799 or 800. *)
Lemma long_side_range n :
  1 <= n <= 4096 -> exists v, long_side n = Some v /\ 799 <= v <= 800.
Proof.
  intros Hn. apply long_side_ok_spec.
  apply (forallb_zrange long_side_ok 1 4096); [vm_compute; reflexivity | lia].
Qed.


(** C16: For images of up to 4096 x 4096 pixels, one side of the
    resize target computed in floats is 799 or 800 pixels: the side whose
    factor won the [min]. *)
Theorem resize_dims_fills_one_side h w nw nh :
  1 <= w <= 4096 -> 1 <= h <= 4096 -> resize_dims h w = Ok (nw, nh) ->
  799 <= nw <= 800 \/ 799 <= nh <= 800.
Proof.
  intros Hw Hh E. apply resize_dims_inv in E as (sw & sh & Esw & Esh & Enw & Enh).
  destruct (py_min_cases sw sh) as [Hm|Hm].
  - left. destruct (long_side_range w Hw) as (v & Ev & Hv).
    rewrite (long_side_of_min w sw _ nw Esw Enw Hm) in Ev. injection Ev as ->. exact Hv.
  - right. destruct (long_side_range h Hh) as (v & Ev & Hv).
    rewrite (long_side_of_min h sh _ nh Esh Enh Hm) in Ev. injection Ev as ->. exact Hv.
Qed.

(** ** The padded canvas *)

Section NormalizeProofs.
Context `{CvBackend}.

(** The form of [normalize_shape] the later proofs build on. *)
Lemma normalize_canvas_shape img p :
  normalize img = Ok p -> rows p = standard_height /\ cols p = standard_width.
Proof.
  unfold normalize. destruct (resize_dims _ _) as [[nw nh]|e]; simpl; [|discriminate].
  destruct (resize img nw nh) as [r|e]; simpl; [|discriminate].
  apply assign_block_shape.
Qed.

(** C14: Whatever the source image, a canvas that [normalize]
    produces is exactly 800 x 800 pixels. *)
Theorem normalize_shape img p :
  normalize img = Ok p -> rows p = standard_height /\ cols p = standard_width.
Proof. apply normalize_canvas_shape. Qed.

(** The form of [normalize_empty_target_raises] the later proofs build on. *)
Lemma normalize_raises_empty img nw nh :
  resize_dims (rows img) (cols img) = Ok (nw, nh) -> nw <= 0 \/ nh <= 0 ->
  normalize img = Raise Cv2Error.
Proof.
  intros E Hz. unfold normalize. rewrite E. simpl. unfold resize.
  destruct Hz as [Hz|Hz]; zcase; try lia; reflexivity.
Qed.

(** C15: When the float computation truncates a side of the target to
    zero (a source far wider than tall, or the reverse), [cv2.resize]
    raises, and so does [normalize]. *)
Theorem normalize_empty_target_raises img nw nh :
  resize_dims (rows img) (cols img) = Ok (nw, nh) -> nw <= 0 \/ nh <= 0 ->
  normalize img = Raise Cv2Error.
Proof. apply normalize_raises_empty. Qed.

Hypothesis laws : CvLaws.

(** The form of [normalize_letterbox] the later proofs build on. *)
Lemma normalize_window img nw nh :
  resize_dims (rows img) (cols img) = Ok (nw, nh) ->
  0 < nw <= standard_width -> 0 < nh <= standard_height ->
  exists p, normalize img = Ok p /\
    rows p = standard_height /\ cols p = standard_width /\
    forall r c, at_ p r c =
      if (y_offset nh <=? r) && (r <? y_offset nh + nh) &&
         (x_offset nw <=? c) && (c <? x_offset nw + nw)
      then at_ (cv_resize img nw nh) (r - y_offset nh) (c - x_offset nw)
      else black.
Proof.
  intros E Hw Hh. unfold normalize. rewrite E. simpl. unfold resize.
  zcase; try lia. simpl.
  destruct (law_resize_shape laws img nw nh) as [Hr Hc]; try lia.
  pose proof (offset_centred standard_width nw ltac:(lia)) as Ox.
  pose proof (offset_centred standard_height nh ltac:(lia)) as Oy.
  unfold x_offset, y_offset.
  rewrite (assign_block_fits _ _ _ _ nh nw Hr Hc) by (unfold zeros; cbn [rows cols]; lia).
  eexists. split; [reflexivity|]. split; [reflexivity|]. split; [reflexivity|].
  intros r c. simpl. destruct (_ && _); reflexivity.
Qed.

(** C2: When the target size is within the canvas, [normalize]
    succeeds, and the canvas shows the resized image in the window that
    starts at the floor-divided offsets, and black everywhere else. *)
Theorem normalize_letterbox img nw nh :
  resize_dims (rows img) (cols img) = Ok (nw, nh) ->
  0 < nw <= standard_width -> 0 < nh <= standard_height ->
  exists p, normalize img = Ok p /\
    rows p = standard_height /\ cols p = standard_width /\
    forall r c, at_ p r c =
      if (y_offset nh <=? r) && (r <? y_offset nh + nh) &&
         (x_offset nw <=? c) && (c <? x_offset nw + nw)
      then at_ (cv_resize img nw nh) (r - y_offset nh) (c - x_offset nw)
      else black.
Proof. apply normalize_window. Qed.

(** C10: A divergence from the spec's exact scale: for a source 97 pixels
    wide and at most as tall, [int(97 * (800 / 97))] is 799 in floats, so
    the canvas keeps a black last column, where the spec's exact target
    is 800 pixels wide. *)
Theorem normalize_width97_black_column img :
  cols img = 97 -> 1 <= rows img <= 97 ->
  fst (spec_dims (rows img) (cols img)) = 800 /\
  exists p, normalize img = Ok p /\ forall r, at_ p r 799 = black.
Proof.
  intros Hc Hr. split.
  { unfold spec_dims. rewrite Hc, Z.max_l by lia. reflexivity. }
  assert (Hok : width97_ok (rows img) = true).
  { apply (forallb_zrange width97_ok 1 97); [vm_compute; reflexivity | lia]. }
  unfold width97_ok in Hok. rewrite <- Hc in Hok.
  destruct (resize_dims (rows img) (cols img)) as [[nw nh]|e] eqn:E; [|discriminate].
  apply andb_true_iff in Hok as [Hw Hh]. apply Z.eqb_eq in Hw. autorewrite with cv_rw in Hh.
  subst nw. destruct (normalize_window img 799 nh E) as (p & Ep & _ & _ & Hp);
    unfold standard_width, standard_height; try lia.
  exists p. split; [exact Ep|]. intros r. rewrite Hp.
  replace (x_offset 799) with 0 by reflexivity.
  destruct (_ <=? _), (_ <? _), (0 <=? 799); reflexivity.
Qed.

(** [normalize] reads only the shape and the cells of the decoded image. *)
Lemma normalize_ext img1 img2 :
  0 < rows img1 -> 0 < cols img1 -> grid_eq img1 img2 ->
  outcome_rel grid_eq (normalize img1) (normalize img2).
Proof.
  intros Hr Hc Heq. pose proof Heq as (Er & Ec & _). unfold normalize. rewrite <- Er, <- Ec.
  destruct (resize_dims _ _) as [[nw nh]|e]; simpl; [|reflexivity].
  unfold resize. destruct ((nw <=? 0) || (nh <=? 0)) eqn:G; simpl; [reflexivity|].
  apply orb_false_iff in G as [G1 G2]. apply Z.leb_gt in G1, G2.
  apply assign_block_proper; try reflexivity.
  apply (law_resize_ext laws); assumption.
Qed.

End NormalizeProofs.

(** ** Witnesses *)


Lemma resize_dims_fills_one_side_witness :
  resize_dims 50 97 = Ok (799, 412) /\ (799 <= 799 <= 800 \/ 799 <= 412 <= 800).
Proof.
  split; [vm_compute; reflexivity|].
  apply (resize_dims_fills_one_side 50 97); [lia | lia | vm_compute; reflexivity].
Defined.

Lemma normalize_shape_witness :
  exists p, normalize sample_97x50 = Ok p /\
    rows p = standard_height /\ cols p = standard_width.
Proof.
  destruct (normalize sample_97x50) as [p|e] eqn:E.
  - exists p. split; [reflexivity|]. exact (normalize_shape _ _ E).
  - vm_compute in E. discriminate.
Defined.

Lemma normalize_empty_target_raises_witness :
  resize_dims (rows sample_1000x1) (cols sample_1000x1) = Ok (800, 0) /\
  normalize sample_1000x1 = Raise Cv2Error.
Proof.
  split; [vm_compute; reflexivity|].
  apply (normalize_empty_target_raises sample_1000x1 800 0); [vm_compute; reflexivity | lia].
Defined.

Lemma normalize_letterbox_witness :
  resize_dims (rows sample_97x50) (cols sample_97x50) = Ok (799, 412) /\
  exists p, normalize sample_97x50 = Ok p /\
    rows p = standard_height /\ cols p = standard_width /\
    forall r c, at_ p r c =
      if (y_offset 412 <=? r) && (r <? y_offset 412 + 412) &&
         (x_offset 799 <=? c) && (c <? x_offset 799 + 799)
      then at_ (cv_resize sample_97x50 799 412) (r - y_offset 412) (c - x_offset 799)
      else black.
Proof.
  assert (E : resize_dims (rows sample_97x50) (cols sample_97x50) = Ok (799, 412))
    by (vm_compute; reflexivity).
  split; [exact E|].
  apply (normalize_letterbox toy_laws sample_97x50 799 412 E);
    unfold standard_width, standard_height; lia.
Defined.

Lemma normalize_width97_black_column_witness :
  cols sample_97x50 = 97 /\ 1 <= rows sample_97x50 <= 97 /\
  fst (spec_dims (rows sample_97x50) (cols sample_97x50)) = 800 /\
  exists p, normalize sample_97x50 = Ok p /\ forall r, at_ p r 799 = black.
Proof.
  assert (Hc : cols sample_97x50 = 97) by reflexivity.
  assert (Hr : 1 <= rows sample_97x50 <= 97) by (simpl; lia).
  split; [exact Hc|]. split; [exact Hr|].
  exact (normalize_width97_black_column toy_laws sample_97x50 Hc Hr).
Defined.
