(* ===== verification/ColorSegmenter.v ===== *)
(** * ColorSegmenter: lines 54 and 61-63 of [src/y.py]

    The canvas is converted once to HSV ([to_hsv], line 54, through the
    backend's per-pixel conversion) and, for each entry of [color_names],
    [cv2.inRange] marks the pixels whose three channels all lie in the
    inclusive ranges of the band ([in_range], line 63).  [bands_of] lists
    the bands that claim a pixel: the table's ranges overlap on their
    shared hues, and leave the hues 171-179 (the reds past magenta) to no
    band at all and the hues 151-170 to none once saturation passes 200. *)

From Stdlib Require Import ZArith List String Bool Lia DecidableClass Morphisms.
From S2P Require Import Prelude Config Image Backend.
Import ListNotations.
Open Scope Z_scope.

(** The per-pixel test of [cv2.inRange(hsv, lower, upper)]. *)
Definition in_range_px (lower upper : hsv_bound) (p : bgr) : bool :=
  let '(l0, l1, l2) := lower in
  let '(u0, u1, u2) := upper in
  let '(p0, p1, p2) := p in
  (l0 <=? p0 <=? u0) && (l1 <=? p1 <=? u1) && (l2 <=? p2 <=? u2).

(** The property [inRange] decides, as the spec states it (section 4.2). *)
Definition in_band (lower upper : hsv_bound) (p : bgr) : Prop :=
  let '(l0, l1, l2) := lower in
  let '(u0, u1, u2) := upper in
  let '(p0, p1, p2) := p in
  l0 <= p0 <= u0 /\ l1 <= p1 <= u1 /\ l2 <= p2 <= u2.

Section Segmenter.
Context `{CvBackend}.

(** Line 54: [cv2.cvtColor(padded_image, cv2.COLOR_BGR2HSV)]. *)
Definition to_hsv (img : image) : image :=
  mk_grid (rows img) (cols img) (fun r c => cv_bgr2hsv (at_ img r c)).

End Segmenter.

(** Line 63: [cv2.inRange(hsv_image, np.array(lower), np.array(upper))]
    (the 0/255 mask as a boolean grid). *)
Definition in_range (hsv : image) (lower upper : hsv_bound) : mask :=
  mk_grid (rows hsv) (cols hsv) (fun r c => in_range_px lower upper (at_ hsv r c)).

(** The names of the bands whose masks contain an HSV pixel, in table
    order. *)
Definition bands_of (p : bgr) : list string :=
  map band_name (filter (fun b => in_range_px (band_lower b) (band_upper b) p) color_names).

(** The hues that two bands share, and the exhaustive check behind
    [bands_of_saturated]: the number of bands of each fully saturated,
    fully bright hue. *)
Definition overlap_hues : list Z := [10; 25; 35; 36; 37; 38; 39; 40; 85; 90; 91; 92; 93; 94; 95;
                                     130; 131; 132; 133; 134; 135; 136; 137; 138; 139; 140].

Definition band_count_ok (h : Z) : bool :=
  Nat.eqb (List.length (bands_of (h, 255, 255)))
    (if 151 <=? h then 0%nat
     else if existsb (Z.eqb h) overlap_hues then 2%nat else 1%nat).

#[export, refine] Instance in_band_decidable lower upper p : Decidable (in_band lower upper p) := {
  Decidable_witness := in_range_px lower upper p
}.
Proof.
  destruct lower as [[l0 l1] l2], upper as [[u0 u1] u2], p as [[p0 p1] p2].
  unfold in_range_px, in_band. rewrite !andb_true_iff, !in_closed_spec. tauto.
Defined.

(** The conversion and the mask read only the cells of the canvas. *)
#[export] Instance to_hsv_proper `{CvBackend} : Proper (grid_eq ==> grid_eq) to_hsv.
Proof.
  intros i1 i2 (Er & Ec & E). unfold to_hsv. repeat split; simpl; auto.
  intros r c Hb. rewrite E by exact Hb. reflexivity.
Qed.

#[export] Instance in_range_proper : Proper (grid_eq ==> eq ==> eq ==> grid_eq) in_range.
Proof.
  intros i1 i2 (Er & Ec & E) lo ? <- hi ? <-. unfold in_range. repeat split; simpl; auto.
  intros r c Hb. rewrite E by exact Hb. reflexivity.
Qed.

(** ** Theorems *)

Lemma in_range_px_spec lower upper p :
  in_range_px lower upper p = true <-> in_band lower upper p.
Proof. exact (@Decidable_spec _ (in_band_decidable lower upper p)). Qed.

(** A hue above a band's upper hue is outside the band, whatever the
    saturation and value. *)
Lemma in_range_px_hue_above lower upper h s v :
  fst (fst upper) < h -> in_range_px lower upper (h, s, v) = false.
Proof.
  destruct lower as [[l0 l1] l2], upper as [[u0 u1] u2]. simpl. intros Hh.
  unfold in_closed. destruct (Z.leb_spec h u0); [lia|]. rewrite !andb_false_r. reflexivity.
Qed.

(** Saturation and value of at least 201 are inside every band's bounds
    but Pink's, whose saturation stops at 200: for such a pixel, each band's
    verdict is the one for full saturation and value. *)
Lemma in_range_px_saturated b h s v :
  In b color_names -> 201 <= s <= 255 -> 201 <= v <= 255 ->
  in_range_px (band_lower b) (band_upper b) (h, s, v) =
  in_range_px (band_lower b) (band_upper b) (h, 255, 255).
Proof.
  intros Hb Hs Hv.
  repeat (destruct Hb as [<-|Hb];
    [unfold in_range_px; simpl;
     rewrite (in_closed_ext _ _ s 255), (in_closed_ext _ _ v 255) by lia; reflexivity|]).
  destruct Hb.
Qed.

Lemma bands_of_saturated_eq h s v :
  201 <= s <= 255 -> 201 <= v <= 255 -> bands_of (h, s, v) = bands_of (h, 255, 255).
Proof.
  intros Hs Hv. unfold bands_of. f_equal. apply filter_ext_in.
  intros b Hb. apply in_range_px_saturated; assumption.
Qed.

Lemma in_range_spec hsv lower upper r c :
  at_ (in_range hsv lower upper) r c = true <-> in_band lower upper (at_ hsv r c).
Proof. apply in_range_px_spec. Qed.

(** A pixel in no band fails every band's test. *)
Lemma bands_of_nil px b :
  bands_of px = [] -> In b color_names -> in_range_px (band_lower b) (band_upper b) px = false.
Proof.
  unfold bands_of. intros Hn Hb. apply map_eq_nil in Hn.
  destruct (in_range_px _ _ px) eqn:E; [|reflexivity].
  assert (Hin : In b (filter (fun b => in_range_px (band_lower b) (band_upper b) px) color_names))
    by (apply filter_In; auto).
  rewrite Hn in Hin. destruct Hin.
Qed.

(** C19: How the table covers the saturated, bright pixels (saturation
    and value from 201 to 255): every hue from 0 to 150 is claimed by one
    band, except the shared boundary hues 10, 25, 35-40, 85, 90-95 and
    130-140, which are claimed by two bands (so one region can be boxed
    and labelled twice); the hues 151-179 are claimed by none (Pink, the
    only band above 150, stops at saturation 200). *)
Theorem bands_of_saturated h s v :
  0 <= h < 180 -> 201 <= s <= 255 -> 201 <= v <= 255 ->
  List.length (bands_of (h, s, v)) =
  (if 151 <=? h then 0%nat
   else if existsb (Z.eqb h) overlap_hues then 2%nat else 1%nat).
Proof.
  intros Hh Hs Hv. rewrite bands_of_saturated_eq by assumption.
  apply Nat.eqb_eq.
  apply (forallb_zrange band_count_ok 0 180); [vm_compute; reflexivity | lia].
Qed.

(** C20: OpenCV's 8-bit hue wraps at 180, and red sits at both ends;
    the table's Red band stops at hue 10 and no band reaches past 170, so a
    pixel of hue 171-179 is in no mask, whatever its saturation and
    value. *)
Theorem bands_of_wrapped_red h s v :
  171 <= h -> bands_of (h, s, v) = [].
Proof.
  intros Hh. unfold bands_of, color_names. cbn [filter].
  rewrite !in_range_px_hue_above by (simpl; lia). reflexivity.
Qed.

(** ** Witnesses *)

Lemma bands_of_saturated_witness :
  (0 <= 37 < 180 /\ 201 <= 230 <= 255 /\ 201 <= 240 <= 255) /\
  List.length (bands_of (37, 230, 240)) = 2%nat.
Proof.
  split; [lia|]. apply (bands_of_saturated 37 230 240); lia.
Defined.

Lemma bands_of_wrapped_red_witness :
  171 <= 176 /\ bands_of (176, 255, 255) = [].
Proof. split; [lia | apply bands_of_wrapped_red; lia]. Defined.
