(* ===== verification/StableSort.v ===== *)
(** * [sorted(xs, key=k, reverse=True)]: Python's stable descending sort

    Python guarantees that [sorted] is stable and that [reverse=True]
    keeps equal elements in their original order.  [sort_desc] is an
    insertion sort with that contract; the theorems show that its output is
    a permutation of the input, descending by key, and stable, and that
    these three properties determine the output: any stable sort, CPython's
    Timsort included, returns the list [sort_desc] returns. *)

From Stdlib Require Import ZArith List Bool Lia Sorted Permutation.
From S2P Require Import Prelude.
Import ListNotations.
Open Scope Z_scope.

Section StableSort.
Context {A : Type} (key : A -> Z).

(** Insert [x], which comes before every element of [l] in the input,
    after the elements of strictly larger key. *)
Fixpoint insert_desc (x : A) (l : list A) : list A :=
  match l with
  | [] => [x]
  | y :: l' => if key x <? key y then y :: insert_desc x l' else x :: l
  end.

Fixpoint sort_desc (l : list A) : list A :=
  match l with
  | [] => []
  | x :: l' => insert_desc x (sort_desc l')
  end.

(** Descending by key. *)
Definition desc (a b : A) : Prop := key b <= key a.

(** The elements of key [k], in their order. *)
Definition with_key (k : Z) (l : list A) : list A := filter (fun x => key x =? k) l.

(** The contract of [sorted(l, key=key, reverse=True)] for an output [s]. *)
Definition stable_desc_sort_of (l s : list A) : Prop :=
  Sorted desc s /\ forall k, with_key k s = with_key k l.

(** ** Insertion *)

Lemma insert_desc_perm x l : Permutation (insert_desc x l) (x :: l).
Proof.
  induction l as [|y l IH]; simpl; [reflexivity|].
  destruct (key x <? key y); [|reflexivity].
  rewrite IH. apply perm_swap.
Qed.

Lemma insert_desc_sorted x l : Sorted desc l -> Sorted desc (insert_desc x l).
Proof.
  induction l as [|y l IH]; simpl; intros Hs.
  - repeat constructor.
  - destruct (Z.ltb_spec (key x) (key y)).
    + apply Sorted_inv in Hs as [Hs Hh]. constructor; [exact (IH Hs)|].
      destruct l as [|z l]; simpl.
      * constructor. unfold desc. lia.
      * apply HdRel_inv in Hh. destruct (key x <? key z); constructor; unfold desc in *; lia.
    + constructor; [exact Hs|]. constructor. unfold desc. lia.
Qed.

Lemma with_key_insert_desc k x l :
  Sorted desc l ->
  with_key k (insert_desc x l) = with_key k (x :: l).
Proof.
  induction l as [|y l IH]; simpl; intros Hs; [reflexivity|].
  destruct (Z.ltb_spec (key x) (key y)); [|reflexivity].
  apply Sorted_inv in Hs as [Hs _]. simpl. rewrite IH by exact Hs. simpl.
  destruct (Z.eqb_spec (key x) k), (Z.eqb_spec (key y) k); try lia; reflexivity.
Qed.

(** ** The sort *)

Lemma sort_desc_perm l : Permutation (sort_desc l) l.
Proof.
  induction l as [|x l IH]; simpl; [reflexivity|].
  rewrite insert_desc_perm. constructor. exact IH.
Qed.

Lemma sort_desc_sorted l : Sorted desc (sort_desc l).
Proof. induction l; simpl; auto using insert_desc_sorted. Qed.

Lemma sort_desc_stable k l : with_key k (sort_desc l) = with_key k l.
Proof.
  induction l as [|x l IH]; simpl; [reflexivity|].
  rewrite with_key_insert_desc by apply sort_desc_sorted. simpl.
  rewrite IH. reflexivity.
Qed.

(** ** Uniqueness of the stable sort *)

Lemma with_key_cons_eq k x l : key x = k -> with_key k (x :: l) = x :: with_key k l.
Proof. intros E. unfold with_key. simpl. rewrite E, Z.eqb_refl. reflexivity. Qed.

Lemma with_key_cons_ne k x l : key x <> k -> with_key k (x :: l) = with_key k l.
Proof. intros E. unfold with_key. simpl. apply Z.eqb_neq in E. rewrite E. reflexivity. Qed.

Lemma in_with_key x l : In x l -> In x (with_key (key x) l).
Proof. intros H. apply filter_In. split; [exact H | apply Z.eqb_refl]. Qed.

Lemma in_with_key_inv k x l : In x (with_key k l) -> In x l.
Proof. intros H. apply filter_In in H. apply H. Qed.

(** The head of a descending list has the largest key. *)
Lemma sorted_desc_head x l y : Sorted desc (x :: l) -> In y (x :: l) -> key y <= key x.
Proof.
  intros Hs Hy. apply Sorted_StronglySorted in Hs; [|unfold Relations_1.Transitive, desc; intros; lia].
  apply StronglySorted_inv in Hs as [_ Hall].
  destruct Hy as [<-|Hy]; [lia|]. rewrite Forall_forall in Hall. exact (Hall y Hy).
Qed.

(** Two descending lists with the same elements of each key, in the same
    order, are equal. *)
Theorem stable_desc_unique s1 s2 :
  Sorted desc s1 -> Sorted desc s2 ->
  (forall k, with_key k s1 = with_key k s2) -> s1 = s2.
Proof.
  revert s2. induction s1 as [|x s1 IH]; intros s2 H1 H2 Hk.
  - destruct s2 as [|y s2]; [reflexivity|].
    specialize (Hk (key y)). rewrite with_key_cons_eq in Hk by reflexivity. discriminate.
  - destruct s2 as [|y s2].
    + specialize (Hk (key x)). rewrite with_key_cons_eq in Hk by reflexivity. discriminate.
    + assert (Exy : key x = key y).
      { assert (Hy : In y (x :: s1)).
        { apply (in_with_key_inv (key y)). rewrite Hk. apply in_with_key. left; reflexivity. }
        assert (Hx : In x (y :: s2)).
        { apply (in_with_key_inv (key x)). rewrite <- Hk. apply in_with_key. left; reflexivity. }
        pose proof (sorted_desc_head _ _ _ H1 Hy). pose proof (sorted_desc_head _ _ _ H2 Hx). lia. }
      pose proof (Hk (key x)) as Hx.
      rewrite with_key_cons_eq in Hx by reflexivity. rewrite with_key_cons_eq in Hx by congruence.
      injection Hx as <- _.
      f_equal. apply IH.
      * apply Sorted_inv in H1. apply H1.
      * apply Sorted_inv in H2. apply H2.
      * intros k. specialize (Hk k). destruct (Z.eq_dec (key x) k).
        -- rewrite !with_key_cons_eq in Hk by assumption. injection Hk as Hk. exact Hk.
        -- rewrite !with_key_cons_ne in Hk by assumption. exact Hk.
Qed.

(** The output of [sorted(l, key=key, reverse=True)] is
    determined by its contract: a list is descending by key and keeps the
    elements of each key in their input order exactly when it is
    [sort_desc l]. *)
Theorem sort_desc_characterised l s : stable_desc_sort_of l s <-> s = sort_desc l.
Proof.
  split.
  - intros [Hs Hk]. apply stable_desc_unique; [exact Hs | apply sort_desc_sorted |].
    intros k. rewrite Hk, sort_desc_stable. reflexivity.
  - intros ->. split; [apply sort_desc_sorted | intros k; exact (sort_desc_stable k l)].
Qed.

End StableSort.
