(* ===== verification/RegionExtractor.v ===== *)
(** * RegionExtractor: lines 66-78 of [src/y.py]

    For one band's mask the script takes the external contours
    ([cv2.findContours], a backend call), ranks them by area with
    [sorted(..., key=cv2.contourArea, reverse=True)] ([ranked], through
    [StableSort.sort_desc]) and walks them until the first one whose area
    is below [min_area] ([surviving]: the loop's [break]).  The area is
    [cv2.contourArea], the shoelace formula over the vertices
    ([contour_area2] is twice it, an integer, so that the float comparison
    [area < 7000] is the exact [contour_area2 c < 14000]); the box is
    [cv2.boundingRect] ([bounding_rect]). *)

From Stdlib Require Import ZArith List Bool Lia Sorted Permutation.
From S2P Require Import Prelude Config Image Backend ToyBackend StableSort.
Import ListNotations.
Open Scope Z_scope.

(** [(x, y, w, h)] as [cv2.boundingRect] returns it. *)
Definition rect := (Z * Z * Z * Z)%type.

(** The shoelace sum of [cv2.contourArea], starting from the edge that
    closes the polygon: [a00 += prev.x * p.y - prev.y * p.x]. *)
Fixpoint shoelace_from (prev : point) (c : contour) : Z :=
  match c with
  | [] => 0
  | p :: c' => (fst prev * snd p - snd prev * fst p) + shoelace_from p c'
  end.

(** Twice [cv2.contourArea(c)] (unoriented: the absolute value). *)
Definition contour_area2 (c : contour) : Z :=
  match c with
  | [] => 0
  | p0 :: _ => Z.abs (shoelace_from (last c p0) c)
  end.

(** [area < min_area] of line 74, on twice the area. *)
Definition below_min_area (c : contour) : bool := contour_area2 c <? 2 * min_area.

(** [cv2.boundingRect] of a point set: the extreme coordinates, and the
    width and height counted in pixels ([max - min + 1]). *)
Definition extend (acc : Z * Z * Z * Z) (p : point) : Z * Z * Z * Z :=
  let '(x0, y0, x1, y1) := acc in
  (Z.min x0 (fst p), Z.min y0 (snd p), Z.max x1 (fst p), Z.max y1 (snd p)).

Definition bounding_rect (c : contour) : rect :=
  match c with
  | [] => (0, 0, 0, 0)
  | p :: c' =>
      let '(x0, y0, x1, y1) := fold_left extend c' (fst p, snd p, fst p, snd p) in
      (x0, y0, x1 - x0 + 1, y1 - y0 + 1)
  end.

(** Line 69: the contours ranked by area, largest first, stably. *)
Definition ranked (cs : list contour) : list contour := sort_desc contour_area2 cs.

(** Lines 72-75: the contours the loop body runs on, up to the [break]. *)
Definition surviving (cs : list contour) : list contour :=
  take_while (fun c => negb (below_min_area c)) cs.

Section Extractor.
Context `{CvBackend}.

(** Lines 66-75 for one band's mask. *)
Definition band_contours (m : mask) : list contour := surviving (ranked (cv_find_contours m)).

End Extractor.

(** The bounds of a partial box [(x0, y0, x1, y1)]: it is ordered and
    within [W x H], and it contains a point. *)
Definition box_within (W H : Z) (acc : Z * Z * Z * Z) : Prop :=
  let '(x0, y0, x1, y1) := acc in 0 <= x0 <= x1 /\ x1 < W /\ 0 <= y0 <= y1 /\ y1 < H.

Definition box_contains (acc : Z * Z * Z * Z) (q : point) : Prop :=
  let '(x0, y0, x1, y1) := acc in x0 <= fst q <= x1 /\ y0 <= snd q <= y1.

(** Each bound of a partial box is a coordinate of a point of [c]. *)
Definition box_attained (c : contour) (acc : Z * Z * Z * Z) : Prop :=
  let '(x0, y0, x1, y1) := acc in
  (exists q, In q c /\ fst q = x0) /\ (exists q, In q c /\ snd q = y0) /\
  (exists q, In q c /\ fst q = x1) /\ (exists q, In q c /\ snd q = y1).

(** ** Area and box *)

Lemma contour_area2_nonneg c : 0 <= contour_area2 c.
Proof. destruct c; simpl; lia. Qed.

(** A filled [w x h] block of pixels has contour area [(w - 1) (h - 1)]:
    the contour runs through the centres of the border pixels. *)
Lemma rect_contour_area2 x0 y0 x1 y1 :
  x0 <= x1 -> y0 <= y1 -> contour_area2 (rect_contour x0 y0 x1 y1) = 2 * ((x1 - x0) * (y1 - y0)).
Proof.
  intros. unfold contour_area2, rect_contour. cbn [last shoelace_from fst snd].
  rewrite Z.abs_neq; nia.
Qed.

Lemma bounding_rect_rect_contour x0 y0 x1 y1 :
  x0 <= x1 -> y0 <= y1 ->
  bounding_rect (rect_contour x0 y0 x1 y1) = (x0, y0, x1 - x0 + 1, y1 - y0 + 1).
Proof. intros. unfold bounding_rect, rect_contour. simpl. repeat f_equal; lia. Qed.

(** A contour alone is ranked first, and survives when large enough. *)
Lemma surviving_ranked_single c :
  2 * min_area <= contour_area2 c -> surviving (ranked [c]) = [c].
Proof.
  intros Hc. unfold surviving, ranked, below_min_area. cbn [sort_desc insert_desc take_while].
  destruct (Z.ltb_spec (contour_area2 c) (2 * min_area)); [lia | reflexivity].
Qed.

Lemma extend_within W H acc p :
  box_within W H acc -> 0 <= fst p < W -> 0 <= snd p < H -> box_within W H (extend acc p).
Proof. destruct acc as [[[x0 y0] x1] y1]. simpl. lia. Qed.

Lemma fold_extend_contains q c : forall acc,
  box_contains acc q \/ In q c -> box_contains (fold_left extend c acc) q.
Proof.
  induction c as [|p c IH]; simpl; intros acc Hq.
  - destruct Hq as [Hq|[]]. exact Hq.
  - apply IH. destruct acc as [[[x0 y0] x1] y1].
    destruct Hq as [Hq|[<-|Hq]]; [left | left | right; exact Hq]; simpl in *; lia.
Qed.

(** [cv2.boundingRect] of a contour whose vertices are pixels of a
    [W x H] mask is a box of at least one pixel inside the mask that holds
    every vertex. *)
Lemma bounding_rect_spec W H c x y w h :
  c <> [] -> (forall p, In p c -> 0 <= fst p < W /\ 0 <= snd p < H) ->
  bounding_rect c = (x, y, w, h) ->
  0 <= x /\ 0 <= y /\ 1 <= w /\ 1 <= h /\ x + w <= W /\ y + h <= H /\
  forall p, In p c -> x <= fst p < x + w /\ y <= snd p < y + h.
Proof.
  destruct c as [|p0 c]; [congruence|]. intros _ Hin. unfold bounding_rect.
  assert (Hw : box_within W H (fold_left extend c (fst p0, snd p0, fst p0, snd p0))).
  { apply fold_left_invariant.
    - destruct (Hin p0 (or_introl eq_refl)). simpl. lia.
    - intros acc p Hp Hacc. destruct (Hin p (or_intror Hp)). apply extend_within; assumption. }
  assert (Hc : forall q, In q (p0 :: c) ->
            box_contains (fold_left extend c (fst p0, snd p0, fst p0, snd p0)) q).
  { intros q [<-|Hq]; apply fold_extend_contains; [left; simpl; lia | right; exact Hq]. }
  destruct (fold_left extend c _) as [[[x0 y0] x1] y1].
  intros E. injection E as <- <- <- <-. simpl in Hw.
  do 6 (split; [lia|]). intros q Hq. specialize (Hc q Hq). simpl in Hc. lia.
Qed.

Lemma extend_attained c acc p : box_attained c acc -> In p c -> box_attained c (extend acc p).
Proof.
  destruct acc as [[[x0 y0] x1] y1]. simpl. intros (Ha & Hb & Hc & Hd) Hp.
  repeat split;
    [destruct (Z.min_spec x0 (fst p)) as [[_ ->]|[_ ->]]
    |destruct (Z.min_spec y0 (snd p)) as [[_ ->]|[_ ->]]
    |destruct (Z.max_spec x1 (fst p)) as [[_ ->]|[_ ->]]
    |destruct (Z.max_spec y1 (snd p)) as [[_ ->]|[_ ->]]]; eauto.
Qed.

(** [cv2.boundingRect] is tight: its left and top edges are the least
    coordinates of the contour, and [x + w - 1], [y + h - 1] the
    greatest. *)
Lemma bounding_rect_tight c x y w h :
  c <> [] -> bounding_rect c = (x, y, w, h) -> box_attained c (x, y, x + w - 1, y + h - 1).
Proof.
  destruct c as [|p0 c]; [congruence|]. intros _. unfold bounding_rect.
  assert (Ha : box_attained (p0 :: c) (fold_left extend c (fst p0, snd p0, fst p0, snd p0))).
  { apply fold_left_invariant.
    - simpl. repeat split; exists p0; simpl; auto.
    - intros acc p Hp Hacc. apply extend_attained; [exact Hacc | right; exact Hp]. }
  destruct (fold_left extend c _) as [[[x0 y0] x1] y1].
  intros E. injection E as <- <- <- <-.
  replace (x0 + (x1 - x0 + 1) - 1) with x1 by lia. replace (y0 + (y1 - y0 + 1) - 1) with y1 by lia.
  exact Ha.
Qed.

(** ** Ranking and the short-circuit *)

Lemma ranked_strongly_sorted cs : StronglySorted (desc contour_area2) (ranked cs).
Proof.
  apply Sorted_StronglySorted; [unfold Relations_1.Transitive, desc; intros; lia|].
  apply sort_desc_sorted.
Qed.

(** The form of [surviving_ranked_is_filter] the later proofs build on. *)
Lemma surviving_is_filter cs :
  surviving (ranked cs) = filter (fun c => negb (below_min_area c)) (ranked cs).
Proof.
  apply take_while_filter.
  eapply StronglySorted_impl; [|apply ranked_strongly_sorted].
  unfold desc, below_min_area. intros a b Hab.
  rewrite !negb_true_iff, !Z.ltb_ge. lia.
Qed.

(** C3: Breaking at the first contour below the threshold loses
    nothing: on the ranked list the loop visits exactly the contours a
    per-item skip would keep, in ranked order. *)
Theorem surviving_ranked_is_filter cs :
  surviving (ranked cs) = filter (fun c => negb (below_min_area c)) (ranked cs).
Proof. apply surviving_is_filter. Qed.

(** The form of [surviving_ranked_members] the later proofs build on. *)
Lemma surviving_in cs c :
  In c (surviving (ranked cs)) <-> In c cs /\ 2 * min_area <= contour_area2 c.
Proof.
  rewrite surviving_is_filter, filter_In, negb_true_iff.
  unfold below_min_area. rewrite Z.ltb_ge. unfold ranked.
  split; intros [H1 H2]; split; try exact H2.
  - eapply Permutation_in; [apply sort_desc_perm | exact H1].
  - eapply Permutation_in; [symmetry; apply sort_desc_perm | exact H1].
Qed.

(** C11: The contours the loop body runs on are exactly the
    contours of the mask whose area is at least [min_area]. *)
Theorem surviving_ranked_members cs c :
  In c (surviving (ranked cs)) <-> In c cs /\ 2 * min_area <= contour_area2 c.
Proof. apply surviving_in. Qed.

(** C17: The surviving contours come in descending order of area. *)
Theorem surviving_ranked_descending cs :
  StronglySorted (desc contour_area2) (surviving (ranked cs)).
Proof. apply take_while_sorted, ranked_strongly_sorted. Qed.

(** C18: The area the threshold is applied to is the contour's
    polygon area, not the pixel count: a filled block of 84 x 84 = 7056
    pixels has a contour area of 83 x 83 = 6889 and is dropped, whatever
    its position. *)
Theorem block_84_dropped x0 y0 :
  surviving (ranked [rect_contour x0 y0 (x0 + 83) (y0 + 83)]) = [].
Proof.
  unfold ranked, surviving. simpl. unfold below_min_area.
  rewrite rect_contour_area2 by lia.
  replace (2 * ((x0 + 83 - x0) * (y0 + 83 - y0))) with 13778 by ring. reflexivity.
Qed.

(** ** Witnesses *)

