(* ===== verification/LabelPlacer.v ===== *)
(** * LabelPlacer: lines 81-89 of [src/y.py]

    The label of a box at [(x, y, w, h)] is anchored at [x], 10 pixels above
    the box when [y - 10 > 10] and 20 pixels below its bottom edge
    otherwise ([default_anchor]).  The anchor is then compared with the
    anchors already placed on this image, in placement order; at the first
    one closer than 100 pixels horizontally and 30 vertically it moves to
    30 pixels below that one, and the search stops ([resolve_y]).  The
    theorems give the rule on every branch, where an anchor can land, and
    that the moved anchor clears the label it was moved for. *)

From Stdlib Require Import ZArith List Bool Lia.
From S2P Require Import Prelude RegionExtractor.
Import ListNotations.
Open Scope Z_scope.

(** A label anchor [(text_x, text_y)]. *)
Definition anchor := (Z * Z)%type.

(** Line 87: [abs(text_x - prev_x) < 100 and abs(text_y - prev_y) < 30]. *)
Definition overlaps (a prev : anchor) : bool :=
  (Z.abs (fst a - fst prev) <? 100) && (Z.abs (snd a - snd prev) <? 30).

(** Lines 82-83. *)
Definition default_anchor (x y h : Z) : anchor :=
  (x, if 10 <? y - 10 then y - 10 else y + h + 20).

(** Lines 86-89: the first overlapping anchor decides, then [break]. *)
Fixpoint resolve_y (text_x text_y : Z) (text_positions : list anchor) : Z :=
  match text_positions with
  | [] => text_y
  | prev :: rest =>
      if overlaps (text_x, text_y) prev then snd prev + 30
      else resolve_y text_x text_y rest
  end.

(** Lines 81-89: the anchor of the label of box [b]. *)
Definition label_anchor (b : rect) (text_positions : list anchor) : anchor :=
  let '(x, y, w, h) := b in
  let '(text_x, text_y) := default_anchor x y h in
  (text_x, resolve_y text_x text_y text_positions).

(** ** The default anchor *)

(** C12: The label goes 10 pixels above the box when the box top is
    below row 20, and otherwise 20 pixels below the box's bottom edge. *)
Theorem default_anchor_spec x y h :
  fst (default_anchor x y h) = x /\
  (20 < y -> snd (default_anchor x y h) = y - 10) /\
  (y <= 20 -> snd (default_anchor x y h) = y + h + 20).
Proof. unfold default_anchor. simpl. repeat split; intros; zcase; lia. Qed.

(** ** The overlap rule *)

(** With no placed anchor in conflict, the default anchor stays. *)
Lemma resolve_y_no_conflict tx ty ps :
  Forall (fun p => overlaps (tx, ty) p = false) ps -> resolve_y tx ty ps = ty.
Proof.
  induction 1 as [|p ps Hp _ IH]; simpl; [reflexivity|]. rewrite Hp. exact IH.
Qed.

(** The form of [resolve_y_first_conflict] the later proofs build on. *)
Lemma resolve_y_first tx ty pre p post :
  Forall (fun q => overlaps (tx, ty) q = false) pre -> overlaps (tx, ty) p = true ->
  resolve_y tx ty (pre ++ p :: post) = snd p + 30.
Proof.
  induction 1 as [|q pre Hq _ IH]; simpl; intros Hp.
  - rewrite Hp. reflexivity.
  - rewrite Hq. exact (IH Hp).
Qed.

(** C4: The anchor moves to 30 pixels below the first placed anchor
    it conflicts with, in placement order, whatever comes after it. *)
Theorem resolve_y_first_conflict tx ty pre p post :
  Forall (fun q => overlaps (tx, ty) q = false) pre -> overlaps (tx, ty) p = true ->
  resolve_y tx ty (pre ++ p :: post) = snd p + 30.
Proof. apply resolve_y_first. Qed.

(** C13: The moved anchor no longer conflicts with the anchor it was
    moved for: it is exactly 30 pixels below it. *)
Theorem resolve_y_clears_first tx ty pre p post :
  Forall (fun q => overlaps (tx, ty) q = false) pre -> overlaps (tx, ty) p = true ->
  overlaps (tx, resolve_y tx ty (pre ++ p :: post)) p = false.
Proof.
  intros Hpre Hp. rewrite (resolve_y_first _ _ _ _ _ Hpre Hp).
  unfold overlaps. simpl. replace (snd p + 30 - snd p) with 30 by ring.
  rewrite andb_false_r. reflexivity.
Qed.

(** C26: The anchor either stays at its default or lands exactly 30
    pixels below a placed anchor it conflicted with. *)
Theorem resolve_y_cases tx ty ps :
  resolve_y tx ty ps = ty \/
  exists p, In p ps /\ overlaps (tx, ty) p = true /\ resolve_y tx ty ps = snd p + 30.
Proof.
  induction ps as [|p ps IH]; simpl; [auto|].
  destruct (overlaps (tx, ty) p) eqn:E.
  - right. exists p. auto.
  - destruct IH as [IH|(q & Hq & Eq & IH)]; [auto|]. right. exists q. auto.
Qed.


(** ** Witnesses *)

Lemma resolve_y_first_conflict_witness :
  Forall (fun q => overlaps (0, 100) q = false) [(500, 100)] /\
  overlaps (0, 100) (30, 110) = true /\
  resolve_y 0 100 ([(500, 100)] ++ (30, 110) :: [(0, 100)]) = 140.
Proof.
  assert (H1 : Forall (fun q => overlaps (0, 100) q = false) [(500, 100)])
    by (repeat constructor).
  assert (H2 : overlaps (0, 100) (30, 110) = true) by reflexivity.
  split; [exact H1|]. split; [exact H2|].
  exact (resolve_y_first_conflict 0 100 [(500, 100)] (30, 110) [(0, 100)] H1 H2).
Defined.

Lemma resolve_y_clears_first_witness :
  Forall (fun q => overlaps (0, 100) q = false) [] /\
  overlaps (0, 100) (30, 110) = true /\
  overlaps (0, resolve_y 0 100 ([] ++ (30, 110) :: [])) (30, 110) = false.
Proof.
  assert (H1 : Forall (fun q => overlaps (0, 100) q = false) []) by constructor.
  assert (H2 : overlaps (0, 100) (30, 110) = true) by reflexivity.
  split; [exact H1|]. split; [exact H2|].
  exact (resolve_y_clears_first 0 100 [] (30, 110) [] H1 H2).
Defined.

Lemma default_anchor_spec_witness :
  snd (default_anchor 7 5 60) = 5 + 60 + 20 /\ snd (default_anchor 7 50 60) = 40.
Proof.
  split.
  - apply (proj2 (proj2 (default_anchor_spec 7 5 60))). lia.
  - apply (proj1 (proj2 (default_anchor_spec 7 50 60))). lia.
Defined.
