(* ===== verification/Annotator.v ===== *)
(** * Annotator: lines 79 and 92-98 of [src/y.py]

    For each surviving contour the script draws the box outline in green
    with thickness 2 ([box_op], line 79) and, at the label anchor, a filled
    green background sized to the text plus a margin and the band name in
    black on top ([label_ops], lines 92-98).  A drawing call is a
    [Backend.draw_op]; its pixels are the backend's [cv_draw]. *)

From Stdlib Require Import ZArith List String Lia.
From S2P Require Import Prelude Image Backend RegionExtractor LabelPlacer.
Import ListNotations.
Open Scope Z_scope.

(** [(0, 255, 0)]: green, for boxes and label backgrounds. *)
Definition box_color : bgr := (0, 255, 0).

(** [(0, 0, 0)]: black, for the label text. *)
Definition text_color : bgr := (0, 0, 0).

(** Line 79: [cv2.rectangle(padded_image, (x, y), (x + w, y + h), (0, 255, 0), 2)]. *)
Definition box_op (b : rect) : draw_op :=
  let '(x, y, w, h) := b in Rectangle (x, y) (x + w, y + h) box_color 2.

(** Lines 92-98 for a label size [(text_w, text_h)]: the background
    rectangle from [(text_x, text_y - text_h - 5)] to
    [(text_x + text_w + 5, text_y + 5)], filled, then the text at the
    anchor. *)
Definition label_ops_sized (color_name : string) (text_size : Z * Z) (a : anchor) : list draw_op :=
  let '(text_x, text_y) := a in
  [ Rectangle (text_x, text_y - snd text_size - 5) (text_x + fst text_size + 5, text_y + 5)
      box_color (-1);
    PutText color_name (text_x, text_y) text_color 2 ].

Section Annotator.
Context `{CvBackend}.

(** Line 92: [cv2.getTextSize(color_name, cv2.FONT_HERSHEY_SIMPLEX, 0.6, 2)[0]]. *)
Definition label_ops (color_name : string) (a : anchor) : list draw_op :=
  label_ops_sized color_name (cv_text_size color_name) a.

(** Replaying drawing calls on an image, in the order they were made. *)
Definition replay (img : image) (ops : list draw_op) : image := fold_left cv_draw ops img.

End Annotator.

(** The boxes among drawing calls: the outlines of thickness 2. *)
Definition is_box_op (op : draw_op) : bool :=
  match op with
  | Rectangle _ _ _ t => t =? 2
  | PutText _ _ _ _ => false
  end.

(** The texts written by drawing calls. *)
Definition texts (ops : list draw_op) : list string :=
  flat_map (fun op => match op with PutText s _ _ _ => [s] | Rectangle _ _ _ _ => [] end) ops.

(** ** Theorems *)

(** The label background spans [text_w + 5] columns from the
    anchor and [text_h + 10] rows, its bottom edge 5 rows below the
    anchor (the spec puts it at the anchor); the text goes at the anchor,
    on top of it. *)
Theorem label_ops_geometry name tw th tx ty :
  label_ops_sized name (tw, th) (tx, ty) =
  [ Rectangle (tx, ty + 5 - (th + 10)) (tx + (tw + 5), ty + 5) box_color (-1);
    PutText name (tx, ty) text_color 2 ].
Proof. unfold label_ops_sized. simpl. do 3 f_equal; lia. Qed.

Section AnnotatorProofs.
Context `{CvBackend}.
Hypothesis laws : CvLaws.

(** Drawing keeps the canvas shape. *)
Lemma replay_shape img ops :
  rows (replay img ops) = rows img /\ cols (replay img ops) = cols img.
Proof.
  unfold replay. revert img. induction ops as [|op ops IH]; simpl; intros img; [auto|].
  destruct (IH (cv_draw img op)) as [-> ->]. apply (law_draw_shape laws).
Qed.

(** Replaying the same calls on two equal canvases gives equal canvases. *)
Lemma replay_ext img1 img2 ops : grid_eq img1 img2 -> grid_eq (replay img1 ops) (replay img2 ops).
Proof.
  unfold replay. revert img1 img2. induction ops as [|op ops IH]; simpl; intros i1 i2 E; [exact E|].
  apply IH, (law_draw_ext laws), E.
Qed.

End AnnotatorProofs.

Lemma replay_app `{CvBackend} img ops1 ops2 :
  replay img (ops1 ++ ops2) = replay (replay img ops1) ops2.
Proof. unfold replay. apply fold_left_app. Qed.

Lemma texts_app ops1 ops2 : texts (ops1 ++ ops2) = texts ops1 ++ texts ops2.
Proof. unfold texts. apply flat_map_app. Qed.
