(* ===== verification/Pipeline.v ===== *)
(** * Pipeline: the per-image body of the loop of [src/y.py] (lines 38-101)

    The state the body threads is a [frame]: the padded canvas as
    [normalize] left it, the drawing calls made on it since, in order
    ([drawn]; the written image is their [replay]), the counter
    [contour_count] and the list [text_positions] of placed label anchors.
    [draw_contour] is the loop body of lines 77-101 for one contour,
    [contour_loop] the loop with its [break] (lines 72-101),
    [process_band] one iteration of the band loop (lines 61-101) and
    [process_image] the whole body from the decoded image to the final
    frame.  [reachable] is the step relation of the drawing loop; its
    invariant ties the counter, the anchors and the drawing calls
    together.  The theorems on a processed image give its outlines, band
    by band ([band_boxes]), their geometry, and its anchors as the greedy
    placement of its boxes in drawing order ([place_all]). *)

From Stdlib Require Import ZArith List String Bool Lia Sorted Morphisms.
From S2P Require Import Prelude Config Image Backend ToyBackend Normalizer ColorSegmenter.
From S2P Require Import StableSort RegionExtractor LabelPlacer Annotator.
Import ListNotations.
Open Scope Z_scope.

Record frame := mk_frame {
  padded : image;
  drawn : list draw_op;
  contour_count : Z;
  text_positions : list anchor
}.

(** Lines 48-58: the canvas before any drawing, a zero counter and no
    anchor. *)
Definition init_frame (padded_image : image) : frame :=
  mk_frame padded_image [] 0 [].

Section Pipeline.
Context `{CvBackend}.

(** Lines 77-101 for one contour: the box (line 79), the anchor (lines
    82-89), the label (lines 92-98), the counter (line 100) and the new
    anchor (line 101). *)
Definition draw_contour (color_name : string) (fr : frame) (c : contour) : frame :=
  let b := bounding_rect c in
  let a := label_anchor b (text_positions fr) in
  mk_frame (padded fr)
    (drawn fr ++ box_op b :: label_ops color_name a)
    (contour_count fr + 1)
    (text_positions fr ++ [a]).

(** Lines 72-101: the loop over the ranked contours, up to the [break]. *)
Fixpoint contour_loop (color_name : string) (fr : frame) (contours : list contour) : frame :=
  match contours with
  | [] => fr
  | c :: rest =>
      if below_min_area c then fr
      else contour_loop color_name (draw_contour color_name fr c) rest
  end.

(** Lines 61-101 for one band: its mask, its ranked contours, the loop. *)
Definition process_band (hsv_image : image) (fr : frame) (b : band) : frame :=
  let mask := in_range hsv_image (band_lower b) (band_upper b) in
  let contours := ranked (cv_find_contours mask) in
  contour_loop (band_name b) fr contours.

(** Lines 61-101: all bands, in the order of the dict. *)
Definition band_loop (hsv_image : image) (fr : frame) : frame :=
  fold_left (process_band hsv_image) color_names fr.

(** Lines 39-101: from the decoded image to the final frame. *)
Definition process_image (img : image) : outcome frame :=
  let* padded_image := normalize img in
  let hsv_image := to_hsv padded_image in
  Ok (band_loop hsv_image (init_frame padded_image)).

(** Line 105: the image [cv2.imwrite] receives. *)
Definition output_image (fr : frame) : image := replay (padded fr) (drawn fr).

(** The drawing loop as a step relation: from the initial frame of a
    canvas, each step draws one contour under some band name. *)
Inductive reachable (p : image) : frame -> Prop :=
| reach_init : reachable p (init_frame p)
| reach_draw fr name c : reachable p fr -> reachable p (draw_contour name fr c).

End Pipeline.

#[export] Hint Constructors reachable : cv.

(** The invariant of the drawing loop: the canvas is the one it started
    from, the counter is the number of anchors, and each anchor came with
    three drawing calls, one of them a box. *)
Definition frame_inv (p : image) (fr : frame) : Prop :=
  padded fr = p /\
  contour_count fr = Z.of_nat (List.length (text_positions fr)) /\
  List.length (drawn fr) = (3 * List.length (text_positions fr))%nat /\
  List.length (filter is_box_op (drawn fr)) = List.length (text_positions fr) /\
  List.length (texts (drawn fr)) = List.length (text_positions fr).

(** Two frames that agree: equal canvases as arrays, the same drawing
    calls, counter and anchors. *)
Definition frame_eq (f1 f2 : frame) : Prop :=
  grid_eq (padded f1) (padded f2) /\ drawn f1 = drawn f2 /\
  contour_count f1 = contour_count f2 /\ text_positions f1 = text_positions f2.

(** The boxes among drawing calls, read back as [(x, y, w, h)]: line 79
    draws the outline from [(x, y)] to [(x + w, y + h)] with thickness 2;
    the label background has thickness [-1]. *)
Fixpoint box_rects (ops : list draw_op) : list rect :=
  match ops with
  | [] => []
  | Rectangle (x, y) (x2, y2) _ t :: ops' =>
      if t =? 2 then (x, y, x2 - x, y2 - y) :: box_rects ops' else box_rects ops'
  | PutText _ _ _ _ :: ops' => box_rects ops'
  end.

(** The anchors the rule of lines 81-89 places for boxes taken in this
    order, each resolved against every anchor placed before it. *)
Definition place_all (bs : list rect) : list anchor :=
  fold_left (fun tps b => tps ++ [label_anchor b tps]) bs [].

(** The outlines a band's surviving contours get, in ranked order. *)
Definition band_boxes `{CvBackend} (hsv : image) (b : band) : list draw_op :=
  map (fun c => box_op (bounding_rect c)) (band_contours (in_range hsv (band_lower b) (band_upper b))).

(** Sample canvases for the witnesses: black, black with a red
    100 x 100 block at [(100, 100)], and the 97 x 50 red sample of
    [Normalizer] written with different cells outside its shape. *)
Definition sample_black : image := mk_grid 50 97 (fun _ _ => black).

Definition red_block (r c : Z) : bool :=
  (100 <=? r) && (r <=? 199) && (100 <=? c) && (c <=? 199).

Definition red_canvas : image :=
  mk_grid 800 800 (fun r c => if red_block r c then (0, 0, 255) else black).

Definition sample_97x50_alt : image :=
  mk_grid 50 97 (fun r c => if (0 <=? r) && (r <? 50) then (0, 0, 255) else (7, 7, 7)).

Section PipelineProofs.
Context `{CvBackend}.

(** ** The drawing loop *)

Lemma draw_contour_inv p fr name c :
  frame_inv p fr -> frame_inv p (draw_contour name fr c).
Proof.
  unfold frame_inv, draw_contour. cbn [padded drawn contour_count text_positions].
  intros (Hp & Hc & Hd & Hb & Ht).
  destruct (bounding_rect c) as [[[x y] w] h].
  destruct (label_anchor _ _) as [tx ty].
  unfold label_ops, label_ops_sized. destruct (cv_text_size name) as [tw th].
  rewrite !length_app, filter_app, texts_app, !length_app. simpl.
  split; [exact Hp|]. repeat split; lia.
Qed.

(** The form of [reachable_inv] the later proofs build on. *)
Lemma reachable_frame_inv p fr : reachable p fr -> frame_inv p fr.
Proof.
  induction 1 as [|fr name c _ IH].
  - unfold frame_inv, init_frame. simpl. repeat split.
  - apply draw_contour_inv, IH.
Qed.

(** C8: Rule induction on the drawing loop: in every reachable frame
    the counter equals the number of placed anchors, and the canvas got
    exactly one box, one label background and one text per anchor. *)
Theorem reachable_inv p fr : reachable p fr -> frame_inv p fr.
Proof. apply reachable_frame_inv. Qed.

Lemma contour_loop_reachable p fr name cs :
  reachable p fr -> reachable p (contour_loop name fr cs).
Proof.
  revert fr. induction cs as [|c cs IH]; simpl; intros fr Hr; [exact Hr|].
  destruct (below_min_area c); [exact Hr|]. apply IH. constructor. exact Hr.
Qed.

Lemma band_loop_reachable p hsv fr : reachable p fr -> reachable p (band_loop hsv fr).
Proof.
  intros Hr. unfold band_loop. apply fold_left_invariant; [exact Hr|].
  intros fr' b _ Hr'. apply contour_loop_reachable, Hr'.
Qed.

(** Every frame the band loop leaves, from the initial frame of a canvas,
    satisfies the invariant. *)
Lemma band_loop_inv p hsv : frame_inv p (band_loop hsv (init_frame p)).
Proof. apply reachable_frame_inv, band_loop_reachable. auto with cv. Qed.

(** The loop with its [break] draws exactly the contours of
    [RegionExtractor.surviving], in order, one [draw_contour] each. *)
Lemma contour_loop_fold name fr cs :
  contour_loop name fr cs = fold_left (draw_contour name) (surviving cs) fr.
Proof.
  revert fr. induction cs as [|c cs IH]; simpl; intros fr; [reflexivity|].
  unfold surviving. simpl. destruct (below_min_area c); simpl; [reflexivity|]. apply IH.
Qed.


(** Anchors and drawing calls are only ever appended. *)
Lemma draw_contour_appends name fr c :
  exists a ops, text_positions (draw_contour name fr c) = text_positions fr ++ [a] /\
    drawn (draw_contour name fr c) = drawn fr ++ ops.
Proof. do 2 eexists. split; reflexivity. Qed.

(** C21: Processing a band only appends to the anchors and to the
    drawing calls of the frame, and keeps its canvas: what earlier bands
    placed is never moved or removed. *)
Theorem process_band_appends hsv fr b :
  padded (process_band hsv fr b) = padded fr /\
  (exists new, text_positions (process_band hsv fr b) = text_positions fr ++ new) /\
  (exists ops, drawn (process_band hsv fr b) = drawn fr ++ ops).
Proof.
  unfold process_band. rewrite contour_loop_fold.
  generalize (surviving (ranked (cv_find_contours (in_range hsv (band_lower b) (band_upper b))))).
  intros cs. revert fr. induction cs as [|c cs IH]; simpl; intros fr.
  - split; [reflexivity|]. split; exists []; rewrite app_nil_r; reflexivity.
  - destruct (IH (draw_contour (band_name b) fr c)) as (Hp & [new Hn] & [ops Ho]).
    split; [exact Hp|]. simpl in Hn, Ho. rewrite <- app_assoc in Hn, Ho.
    split; eexists; eassumption.
Qed.

Lemma process_image_inv img fr :
  process_image img = Ok fr ->
  exists p, normalize img = Ok p /\ fr = band_loop (to_hsv p) (init_frame p).
Proof.
  unfold process_image. destruct (normalize img) as [p|e]; simpl; [|discriminate].
  intros E. injection E as <-. eauto.
Qed.

(** C22: After an image is processed, [contour_count] is the number
    of boxes drawn and of labels written, and the canvas is the
    normalized one. *)
Theorem process_image_count img fr :
  process_image img = Ok fr ->
  normalize img = Ok (padded fr) /\
  contour_count fr = Z.of_nat (List.length (filter is_box_op (drawn fr))) /\
  contour_count fr = Z.of_nat (List.length (texts (drawn fr))).
Proof.
  intros E. apply process_image_inv in E as (p & Ep & ->).
  destruct (band_loop_inv p (to_hsv p)) as (Hp & Hc & _ & Hb & Ht).
  rewrite Hp. split; [exact Ep|]. rewrite Hc, Hb, Ht. split; reflexivity.
Qed.

(** ** The boxes and the anchors of an image *)

Lemma box_rects_app l1 l2 : box_rects (l1 ++ l2) = box_rects l1 ++ box_rects l2.
Proof.
  induction l1 as [|op l1 IH]; simpl; [reflexivity|].
  destruct op as [[x y] [x2 y2] col t|s o col t]; [destruct (t =? 2)|]; simpl; rewrite ?IH; reflexivity.
Qed.

Lemma box_rects_draw name a b : box_rects (box_op b :: label_ops name a) = [b].
Proof.
  destruct b as [[[x y] w] h], a as [tx ty]. simpl.
  do 2 f_equal; [f_equal|]; ring.
Qed.

Lemma filter_box_draw name a b : filter is_box_op (box_op b :: label_ops name a) = [box_op b].
Proof. destruct b as [[[x y] w] h], a as [tx ty]. reflexivity. Qed.

Lemma place_all_snoc bs b : place_all (bs ++ [b]) = place_all bs ++ [label_anchor b (place_all bs)].
Proof. unfold place_all. rewrite fold_left_app. reflexivity. Qed.

Lemma reachable_anchors p fr : reachable p fr -> text_positions fr = place_all (box_rects (drawn fr)).
Proof.
  induction 1 as [|fr name c _ IH]; [reflexivity|]. simpl.
  rewrite box_rects_app, box_rects_draw, place_all_snoc, <- IH. reflexivity.
Qed.

Lemma draw_fold_boxes name cs fr :
  filter is_box_op (drawn (fold_left (draw_contour name) cs fr)) =
  filter is_box_op (drawn fr) ++ map (fun c => box_op (bounding_rect c)) cs.
Proof.
  revert fr. induction cs as [|c cs IH]; simpl; intros fr; [rewrite app_nil_r; reflexivity|].
  rewrite IH. simpl. rewrite filter_app, filter_box_draw, <- app_assoc. reflexivity.
Qed.

Lemma band_fold_boxes hsv bands fr :
  filter is_box_op (drawn (fold_left (process_band hsv) bands fr)) =
  filter is_box_op (drawn fr) ++ flat_map (band_boxes hsv) bands.
Proof.
  revert fr. induction bands as [|b bands IH]; simpl; intros fr; [rewrite app_nil_r; reflexivity|].
  rewrite IH. unfold process_band. rewrite contour_loop_fold, draw_fold_boxes, <- app_assoc. reflexivity.
Qed.

(** The form of [process_image_boxes] the later proofs build on. *)
Lemma image_boxes img fr :
  process_image img = Ok fr ->
  exists p, normalize img = Ok p /\ filter is_box_op (drawn fr) = flat_map (band_boxes (to_hsv p)) color_names.
Proof.
  intros E. apply process_image_inv in E as (p & Ep & ->). exists p. split; [exact Ep|].
  unfold band_loop. rewrite band_fold_boxes. reflexivity.
Qed.

(** C32: The outlines drawn on an image are, band after band in the
    order of the table, the boxes of each band's surviving contours in
    ranked order, all bands' masks taken from the one HSV conversion of
    the normalized canvas. *)
Theorem process_image_boxes img fr :
  process_image img = Ok fr ->
  exists p, normalize img = Ok p /\ filter is_box_op (drawn fr) = flat_map (band_boxes (to_hsv p)) color_names.
Proof. apply image_boxes. Qed.

(** C33: Every anchor of an image is the greedy resolution of its
    box against all the anchors placed before it on that image, whatever
    their band: the anchors are [place_all] of the boxes, in drawing order. *)
Theorem process_image_anchors img fr :
  process_image img = Ok fr -> text_positions fr = place_all (box_rects (drawn fr)).
Proof.
  intros E. apply process_image_inv in E as (p & _ & ->).
  apply (reachable_anchors p), band_loop_reachable. auto with cv.
Qed.

Hypothesis laws : CvLaws.

(** A band whose mask is empty draws nothing. *)
Lemma process_band_empty p fr b :
  (forall r c, in_bounds p r c ->
     in_range_px (band_lower b) (band_upper b) (cv_bgr2hsv (at_ p r c)) = false) ->
  process_band (to_hsv p) fr b = fr.
Proof.
  intros Hm. unfold process_band. rewrite (law_contours_empty laws); [reflexivity|].
  intros r c Hb. apply Hm, Hb.
Qed.

(** A band whose mask is one large enough rectangle draws it. *)
Lemma process_band_rect p fr b x0 y0 x1 y1 :
  0 <= x0 < x1 -> x1 < cols p -> 0 <= y0 < y1 -> y1 < rows p ->
  min_area <= (x1 - x0) * (y1 - y0) ->
  mask_is_rect (in_range (to_hsv p) (band_lower b) (band_upper b)) x0 y0 x1 y1 ->
  process_band (to_hsv p) fr b = draw_contour (band_name b) fr (rect_contour x0 y0 x1 y1).
Proof.
  intros Hx Hx1 Hy Hy1 Ha Hm. unfold process_band.
  rewrite (law_contours_rect laws _ x0 y0 x1 y1) by (simpl; assumption || lia).
  rewrite contour_loop_fold, surviving_ranked_single; [reflexivity|].
  rewrite rect_contour_area2 by lia. lia.
Qed.

(** C6: When no pixel of the normalized canvas falls in any band's
    range, the image is processed with no drawing call and a zero count:
    the written image is the normalized one. *)
Theorem no_band_pixels_no_drawing img p :
  normalize img = Ok p ->
  (forall r c, in_bounds p r c -> bands_of (cv_bgr2hsv (at_ p r c)) = []) ->
  process_image img = Ok (init_frame p) /\ output_image (init_frame p) = p.
Proof.
  intros Ep Hn. split; [|reflexivity].
  unfold process_image. rewrite Ep. simpl. f_equal. unfold band_loop.
  apply fold_left_invariant; [reflexivity|]. intros fr b Hb ->.
  apply process_band_empty. intros r c Hrc. apply bands_of_nil; auto.
Qed.

(** C1: The image written for every processed file is 800 x 800
    pixels, whatever the source. *)
Theorem output_image_shape img fr :
  process_image img = Ok fr ->
  rows (output_image fr) = standard_height /\ cols (output_image fr) = standard_width.
Proof.
  intros E. apply process_image_inv in E as (p & Ep & ->).
  destruct (band_loop_inv p (to_hsv p)) as (Hp & _).
  unfold output_image.
  destruct (replay_shape laws (padded (band_loop (to_hsv p) (init_frame p)))
                              (drawn (band_loop (to_hsv p) (init_frame p)))) as [-> ->].
  rewrite Hp. exact (normalize_canvas_shape img p Ep).
Qed.

(** ** Extensionality: the result depends only on the pixels *)

Lemma draw_contour_ext name f1 f2 c :
  frame_eq f1 f2 -> frame_eq (draw_contour name f1 c) (draw_contour name f2 c).
Proof.
  intros (Ep & Ed & Ec & Et). unfold draw_contour, frame_eq. simpl.
  rewrite Ed, Ec, Et. auto.
Qed.

Lemma contour_loop_ext name f1 f2 cs :
  frame_eq f1 f2 -> frame_eq (contour_loop name f1 cs) (contour_loop name f2 cs).
Proof.
  revert f1 f2. induction cs as [|c cs IH]; simpl; intros f1 f2 E; [exact E|].
  destruct (below_min_area c); [exact E|]. apply IH, draw_contour_ext, E.
Qed.

Lemma band_loop_ext hsv1 hsv2 f1 f2 :
  grid_eq hsv1 hsv2 -> frame_eq f1 f2 -> frame_eq (band_loop hsv1 f1) (band_loop hsv2 f2).
Proof.
  intros Eh. unfold band_loop. generalize color_names. intros bs. revert f1 f2.
  induction bs as [|b bs IH]; simpl; intros f1 f2 E; [exact E|]. apply IH.
  unfold process_band.
  assert (Em : cv_find_contours (in_range hsv1 (band_lower b) (band_upper b)) =
               cv_find_contours (in_range hsv2 (band_lower b) (band_upper b))).
  { apply (law_contours_ext laws). rewrite Eh. reflexivity. }
  rewrite Em. apply contour_loop_ext, E.
Qed.

(** Processing reads only the shape and the pixels of the decoded
    image: two arrays with the same shape and the same cells give frames
    that agree, and written images with the same pixels. *)
Theorem process_image_ext img1 img2 :
  0 < rows img1 -> 0 < cols img1 -> grid_eq img1 img2 ->
  outcome_rel (fun f1 f2 => frame_eq f1 f2 /\ grid_eq (output_image f1) (output_image f2))
    (process_image img1) (process_image img2).
Proof.
  intros Hr Hc E. pose proof (normalize_ext laws img1 img2 Hr Hc E) as En.
  unfold process_image.
  destruct (normalize img1) as [p1|e1], (normalize img2) as [p2|e2]; simpl in *; try contradiction;
    [|exact En].
  assert (Ef : frame_eq (band_loop (to_hsv p1) (init_frame p1)) (band_loop (to_hsv p2) (init_frame p2))).
  { apply band_loop_ext; [rewrite En; reflexivity |]. unfold frame_eq, init_frame. simpl. auto. }
  split; [exact Ef|]. destruct Ef as (Ep & Ed & _). unfold output_image. rewrite Ed.
  apply (replay_ext laws), Ep.
Qed.

(** A canvas whose only band pixels are a saturated red rectangle: the
    bands run, and only Red draws, one contour, the rectangle. *)
Lemma red_rectangle_frame p x0 y0 x1 y1 :
  0 <= x0 < x1 -> x1 < cols p -> 0 <= y0 < y1 -> y1 < rows p ->
  min_area <= (x1 - x0) * (y1 - y0) ->
  (forall r c, in_bounds p r c ->
     cv_bgr2hsv (at_ p r c) =
     if (y0 <=? r) && (r <=? y1) && (x0 <=? c) && (c <=? x1) then (0, 255, 255) else (0, 0, 0)) ->
  band_loop (to_hsv p) (init_frame p) = draw_contour "Red" (init_frame p) (rect_contour x0 y0 x1 y1).
Proof.
  intros Hx Hx1 Hy Hy1 Ha Hp. unfold band_loop, color_names. cbn [fold_left].
  repeat rewrite process_band_empty
    by (intros r c Hb; rewrite (Hp r c Hb); destruct (_ && _); reflexivity).
  rewrite (process_band_rect p _ _ x0 y0 x1 y1); try assumption; [reflexivity|].
  intros r c Hb. cbn [at_ in_range to_hsv]. unfold in_bounds in Hb. simpl in Hb.
  rewrite (Hp r c Hb). destruct (_ && _); reflexivity.
Qed.

(** C5: The spec's scenario on the normalized canvas: a black canvas
    with one filled red rectangle of at least [min_area] gets exactly one
    box, the rectangle's, and one label, "Red"; no other band draws. *)
Theorem red_rectangle_one_label p x0 y0 x1 y1 :
  0 <= x0 < x1 -> x1 < cols p -> 0 <= y0 < y1 -> y1 < rows p ->
  min_area <= (x1 - x0) * (y1 - y0) ->
  (forall r c, in_bounds p r c ->
     cv_bgr2hsv (at_ p r c) =
     if (y0 <=? r) && (r <=? y1) && (x0 <=? c) && (c <=? x1) then (0, 255, 255) else (0, 0, 0)) ->
  contour_count (band_loop (to_hsv p) (init_frame p)) = 1 /\
  texts (drawn (band_loop (to_hsv p) (init_frame p))) = ["Red"%string] /\
  filter is_box_op (drawn (band_loop (to_hsv p) (init_frame p))) =
    [box_op (x0, y0, x1 - x0 + 1, y1 - y0 + 1)].
Proof.
  intros Hx Hx1 Hy Hy1 Ha Hp. rewrite (red_rectangle_frame p x0 y0 x1 y1) by assumption.
  unfold draw_contour. rewrite bounding_rect_rect_contour by lia.
  cbn [drawn contour_count init_frame text_positions].
  unfold label_ops, label_ops_sized.
  destruct (label_anchor _ _) as [tx ty]. destruct (cv_text_size _) as [tw th].
  simpl. repeat split.
Qed.

(** C34: Every outline drawn on an image (line 79) belongs to a
    surviving contour of one band's mask: it runs from the contour's least
    column and row to one past its greatest column and row, since
    [cv2.rectangle] draws its corner [(x + w, y + h)] and [w], [h] count
    pixels.  Its far edges can thus lie at column or row 800, outside the
    canvas, when the region reaches the border. *)
Theorem box_outline_geometry img fr op :
  process_image img = Ok fr -> In op (filter is_box_op (drawn fr)) ->
  exists p b c x y x2 y2,
    normalize img = Ok p /\ In b color_names /\
    In c (band_contours (in_range (to_hsv p) (band_lower b) (band_upper b))) /\
    op = Rectangle (x, y) (x2, y2) box_color 2 /\
    0 <= x < x2 /\ x2 <= standard_width /\ 0 <= y < y2 /\ y2 <= standard_height /\
    (forall q, In q c -> x <= fst q < x2 /\ y <= snd q < y2) /\
    box_attained c (x, y, x2 - 1, y2 - 1).
Proof.
  intros E Hop. destruct (image_boxes img fr E) as (p & Ep & Hb). rewrite Hb in Hop.
  apply in_flat_map in Hop as (b & Hbn & Hop). unfold band_boxes in Hop.
  apply in_map_iff in Hop as (c & <- & Hc).
  set (m := in_range (to_hsv p) (band_lower b) (band_upper b)) in Hc.
  destruct (normalize_canvas_shape img p Ep) as [Hr Hcol].
  pose proof Hc as Hc'. apply surviving_in in Hc' as [Hf _].
  destruct (bounding_rect c) as [[[x y] w] h] eqn:Eb.
  destruct (bounding_rect_spec (cols m) (rows m) c x y w h) as (Hx & Hy & Hw & Hh & Hxw & Hyh & Hin);
    [exact (law_contour_nonempty laws m c Hf) | intros q Hq; exact (law_contour_in_mask laws m c q Hf Hq) | exact Eb |].
  pose proof (bounding_rect_tight c x y w h (law_contour_nonempty laws m c Hf) Eb) as Ht.
  exists p, b, c, x, y, (x + w), (y + h).
  simpl in Hxw, Hyh. rewrite Hcol in Hxw. rewrite Hr in Hyh.
  refine (conj Ep (conj Hbn (conj Hc (conj eq_refl (conj _ (conj _ (conj _ (conj _ (conj Hin Ht)))))))));
    lia.
Qed.

End PipelineProofs.

(** ** Witnesses *)

Lemma reachable_inv_witness :
  reachable red_canvas (draw_contour "Red" (init_frame red_canvas) (rect_contour 100 100 199 199)) /\
  frame_inv red_canvas (draw_contour "Red" (init_frame red_canvas) (rect_contour 100 100 199 199)).
Proof.
  assert (R : reachable red_canvas
                (draw_contour "Red" (init_frame red_canvas) (rect_contour 100 100 199 199)))
    by auto with cv.
  split; [exact R | exact (reachable_inv _ _ R)].
Defined.

Lemma process_image_count_witness :
  exists fr, process_image sample_97x50 = Ok fr /\
    normalize sample_97x50 = Ok (padded fr) /\
    contour_count fr = Z.of_nat (List.length (filter is_box_op (drawn fr))) /\
    contour_count fr = Z.of_nat (List.length (texts (drawn fr))).
Proof.
  destruct (normalize sample_97x50) as [p|e] eqn:E; [|vm_compute in E; discriminate].
  exists (band_loop (to_hsv p) (init_frame p)).
  assert (Ep : process_image sample_97x50 = Ok (band_loop (to_hsv p) (init_frame p)))
    by (unfold process_image; rewrite E; reflexivity).
  split; [exact Ep|]. pose proof (process_image_count _ _ Ep) as R. rewrite E in R. exact R.
Defined.

Lemma output_image_shape_witness :
  exists fr, process_image sample_97x50 = Ok fr /\
    rows (output_image fr) = standard_height /\ cols (output_image fr) = standard_width.
Proof.
  destruct (normalize sample_97x50) as [p|e] eqn:E; [|vm_compute in E; discriminate].
  exists (band_loop (to_hsv p) (init_frame p)).
  assert (Ep : process_image sample_97x50 = Ok (band_loop (to_hsv p) (init_frame p)))
    by (unfold process_image; rewrite E; reflexivity).
  split; [exact Ep | exact (output_image_shape toy_laws _ _ Ep)].
Defined.

Lemma no_band_pixels_no_drawing_witness :
  exists p, normalize sample_black = Ok p /\
    (forall r c, in_bounds p r c -> bands_of (cv_bgr2hsv (at_ p r c)) = []) /\
    process_image sample_black = Ok (init_frame p) /\ output_image (init_frame p) = p.
Proof.
  assert (Ed : resize_dims (rows sample_black) (cols sample_black) = Ok (799, 412))
    by (vm_compute; reflexivity).
  destruct (normalize_window toy_laws sample_black 799 412 Ed) as (p & Ep & _ & _ & Hp);
    [unfold standard_width; lia | unfold standard_height; lia |].
  assert (Hn : forall r c, in_bounds p r c -> bands_of (cv_bgr2hsv (at_ p r c)) = []).
  { intros r c _. rewrite Hp. destruct (_ && _); reflexivity. }
  exists p. split; [exact Ep|]. split; [exact Hn|].
  exact (no_band_pixels_no_drawing toy_laws sample_black p Ep Hn).
Defined.

Lemma red_rectangle_one_label_witness :
  (forall r c, in_bounds red_canvas r c ->
     cv_bgr2hsv (at_ red_canvas r c) =
     if (100 <=? r) && (r <=? 199) && (100 <=? c) && (c <=? 199) then (0, 255, 255) else (0, 0, 0)) /\
  contour_count (band_loop (to_hsv red_canvas) (init_frame red_canvas)) = 1 /\
  texts (drawn (band_loop (to_hsv red_canvas) (init_frame red_canvas))) = ["Red"%string] /\
  filter is_box_op (drawn (band_loop (to_hsv red_canvas) (init_frame red_canvas))) =
    [box_op (100, 100, 199 - 100 + 1, 199 - 100 + 1)].
Proof.
  assert (Hp : forall r c, in_bounds red_canvas r c ->
     cv_bgr2hsv (at_ red_canvas r c) =
     if (100 <=? r) && (r <=? 199) && (100 <=? c) && (c <=? 199) then (0, 255, 255) else (0, 0, 0)).
  { intros r c _. simpl. unfold red_block. destruct (_ && _); reflexivity. }
  split; [exact Hp|].
  apply (red_rectangle_one_label toy_laws red_canvas 100 100 199 199);
    try (simpl; lia); [unfold min_area; lia | exact Hp].
Defined.


(** The canvas [normalize] makes of [red_canvas] (800 x 800 already):
    the same picture, a saturated red block on black. *)
Lemma red_canvas_normalized :
  exists p, normalize red_canvas = Ok p /\ rows p = 800 /\ cols p = 800 /\
    forall r c, in_bounds p r c ->
      cv_bgr2hsv (at_ p r c) =
      if (100 <=? r) && (r <=? 199) && (100 <=? c) && (c <=? 199) then (0, 255, 255) else (0, 0, 0).
Proof.
  assert (Ed : resize_dims (rows red_canvas) (cols red_canvas) = Ok (800, 800)) by (vm_compute; reflexivity).
  destruct (normalize_window toy_laws red_canvas 800 800 Ed) as (p & Ep & Hr & Hc & Hp);
    [unfold standard_width; lia | unfold standard_height; lia |].
  unfold standard_height in Hr. unfold standard_width in Hc.
  exists p. split; [exact Ep|]. split; [exact Hr|]. split; [exact Hc|].
  intros r c Hb. unfold in_bounds in Hb. rewrite Hr, Hc in Hb. rewrite Hp.
  change (x_offset 800) with 0. change (y_offset 800) with 0.
  replace ((0 <=? r) && (r <? 0 + 800) && (0 <=? c) && (c <? 0 + 800)) with true
    by (symmetry; rewrite !andb_true_iff, !Z.leb_le, !Z.ltb_lt; lia).
  cbn [cv_resize toy_backend toy_resize at_ red_canvas rows cols].
  rewrite !Z.sub_0_r, !Z.div_mul by lia. unfold red_block.
  destruct (_ && _); reflexivity.
Qed.

Lemma process_image_boxes_witness :
  exists fr, process_image red_canvas = Ok fr /\
    exists p, normalize red_canvas = Ok p /\ filter is_box_op (drawn fr) = flat_map (band_boxes (to_hsv p)) color_names.
Proof.
  destruct red_canvas_normalized as (p & Ep & _).
  assert (E : process_image red_canvas = Ok (band_loop (to_hsv p) (init_frame p)))
    by (unfold process_image; rewrite Ep; reflexivity).
  eexists. split; [exact E | exact (process_image_boxes _ _ E)].
Defined.

Lemma process_image_anchors_witness :
  exists fr, process_image red_canvas = Ok fr /\ text_positions fr = place_all (box_rects (drawn fr)).
Proof.
  destruct red_canvas_normalized as (p & Ep & _).
  assert (E : process_image red_canvas = Ok (band_loop (to_hsv p) (init_frame p)))
    by (unfold process_image; rewrite Ep; reflexivity).
  eexists. split; [exact E | exact (process_image_anchors _ _ E)].
Defined.

Lemma box_outline_geometry_witness :
  exists fr, process_image red_canvas = Ok fr /\
    In (Rectangle (100, 100) (200, 200) box_color 2) (filter is_box_op (drawn fr)) /\
    exists p b c x y x2 y2,
      normalize red_canvas = Ok p /\ In b color_names /\
      In c (band_contours (in_range (to_hsv p) (band_lower b) (band_upper b))) /\
      Rectangle (100, 100) (200, 200) box_color 2 = Rectangle (x, y) (x2, y2) box_color 2 /\
      0 <= x < x2 /\ x2 <= standard_width /\ 0 <= y < y2 /\ y2 <= standard_height /\
      (forall q, In q c -> x <= fst q < x2 /\ y <= snd q < y2) /\
      box_attained c (x, y, x2 - 1, y2 - 1).
Proof.
  destruct red_canvas_normalized as (p & Ep & Hr & Hc & Hp).
  assert (E : process_image red_canvas = Ok (band_loop (to_hsv p) (init_frame p)))
    by (unfold process_image; rewrite Ep; reflexivity).
  assert (Hin : In (Rectangle (100, 100) (200, 200) box_color 2)
                   (filter is_box_op (drawn (band_loop (to_hsv p) (init_frame p))))).
  { rewrite (red_rectangle_frame toy_laws p 100 100 199 199) by (try lia; unfold min_area; lia || exact Hp).
    unfold draw_contour. rewrite bounding_rect_rect_contour by lia.
    cbn [drawn init_frame app]. rewrite filter_box_draw. left. reflexivity. }
  eexists. split; [exact E|]. split; [exact Hin|].
  exact (box_outline_geometry toy_laws _ _ _ E Hin).
Defined.
