(* ===== verification/Batch.v ===== *)
(** * Batch: the directory loop of [src/y.py] (lines 19-36 and 103-108)

    The script lists the input folder, keeps the names whose lower-cased
    form ends with [.png], [.jpg] or [.jpeg] ([image_files], line 28), and
    for each one reads it ([cv2.imread]: [None] when unreadable), skips it
    with a message when unreadable (lines 34-36), otherwise processes it
    ([Pipeline.process_image]) and writes the canvas under the same name in
    the output folder (lines 104-106), printing a success line whatever
    [cv2.imwrite] returned.  An exception raised while processing is not
    caught: it ends the whole run ([Crashed]).  The filesystem is an
    explicit environment [fs]; the output folder's creation (line 21) and
    the console are the [outputs] and [log] of the state. *)

From Stdlib Require Import ZArith List String Ascii Bool Lia.
From S2P Require Import Prelude Image Backend ToyBackend Normalizer ColorSegmenter Pipeline.
Import ListNotations.
Open Scope Z_scope.
Open Scope string_scope.

(** Lines 19-20. *)
Definition image_folder : string := "C://Users//user//images/".
Definition output_folder : string := "C://Users//user//output/".

(** [c.lower()] on an ASCII character. *)
Definition lower_ascii (a : ascii) : ascii :=
  let n := nat_of_ascii a in
  if (65 <=? n)%nat && (n <=? 90)%nat then ascii_of_nat (n + 32) else a.

(** [s.lower()] on an ASCII string. *)
Fixpoint lower (s : string) : string :=
  match s with
  | EmptyString => EmptyString
  | String a s' => String (lower_ascii a) (lower s')
  end.

(** [s.endswith(suffix)]. *)
Definition endswith (s suffix : string) : bool :=
  let n := String.length s in
  let m := String.length suffix in
  (m <=? n)%nat && String.eqb (substring (n - m) m s) suffix.

(** Line 28: the extensions of [endswith(('.png', '.jpg', '.jpeg'))]. *)
Definition image_exts : list string := [".png"; ".jpg"; ".jpeg"].

Definition is_image_file (f : string) : bool := existsb (endswith (lower f)) image_exts.

(** Line 28. *)
Definition image_files (entries : list string) : list string := filter is_image_file entries.

(** [os.path.join(folder, name)] for a relative [name]: both folders end
    with a separator, so the name is appended as it is. *)
Definition path_join (folder name : string) : string :=
  if endswith folder "/" then folder ++ name else folder ++ "/" ++ name.

(** The environment: whether [os.makedirs(output_folder, exist_ok=True)]
    returns (it raises when the path exists as a file or cannot be
    created), the entries of the input folder ([None] when [os.listdir]
    raises, e.g. on a missing folder), what [cv2.imread] returns for a
    path, and whether [cv2.imwrite] succeeds on a path. *)
Record fs := mk_fs {
  makedirs_ok : bool;
  listdir : option (list string);
  imread : string -> option image;
  imwrite_ok : string -> image -> bool
}.

(** The console lines of lines 35, 106 and 108. *)
Inductive log_line :=
| Unreadable (image_file : string)
| Saved (output_path : string)
| AllDone.

Record batch_state := mk_batch {
  outputs : list (string * image);
  log : list log_line
}.

(** How the run ends: normally, or by an uncaught exception. *)
Inductive run_result :=
| Finished (st : batch_state)
| Crashed (e : exn) (st : batch_state).

Section Batch.
Context `{CvBackend}.

(** Lines 104-106: write, then report success whatever the write did. *)
Definition save (env : fs) (st : batch_state) (image_file : string) (img : image) : batch_state :=
  let output_path := path_join output_folder image_file in
  mk_batch
    (if imwrite_ok env output_path img then outputs st ++ [(output_path, img)] else outputs st)
    (log st ++ [Saved output_path]).

(** Lines 31-108. *)
Fixpoint run_files (env : fs) (files : list string) (st : batch_state) : run_result :=
  match files with
  | [] => Finished (mk_batch (outputs st) (log st ++ [AllDone]))
  | image_file :: rest =>
      match imread env (path_join image_folder image_file) with
      | None => run_files env rest (mk_batch (outputs st) (log st ++ [Unreadable image_file]))
      | Some image =>
          match process_image image with
          | Raise e => Crashed e st
          | Ok fr => run_files env rest (save env st image_file (output_image fr))
          end
      end
  end.

(** The script: create the output folder (line 21), list and filter
    the input folder (line 28), run from an empty state.  An exception of
    lines 21 or 28 ends the script before any file. *)
Definition main (env : fs) : run_result :=
  if makedirs_ok env then
    match listdir env with
    | Some entries => run_files env (image_files entries) (mk_batch [] [])
    | None => Crashed OSError (mk_batch [] [])
    end
  else Crashed OSError (mk_batch [] []).

End Batch.

(** Lines 33-34: whether [cv2.imread] decodes the file ([image is not None]). *)
Definition readable (env : fs) (f : string) : bool :=
  match imread env (path_join image_folder f) with Some _ => true | None => false end.

(** The console line printed for one image file that does not crash the
    run: line 106 for a readable file, line 35 otherwise. *)
Definition report (env : fs) (f : string) : log_line :=
  if readable env f then Saved (path_join output_folder f) else Unreadable f.

(** The number of unreadable-file lines of a log. *)
Definition unreadable_count (l : list log_line) : nat :=
  List.length (filter (fun x => match x with Unreadable _ => true | _ => false end) l).

(** Sample environments for the witnesses. *)
Definition env_unreadable : fs := mk_fs true (Some ["a.png"; "notes.txt"; "B.JPG"]) (fun _ => None) (fun _ _ => true).

Definition env_good_bad : fs :=
  mk_fs true (Some ["good.png"; "bad.jpg"])
    (fun path => if String.eqb path (path_join image_folder "good.png") then Some sample_97x50 else None)
    (fun _ _ => true).

Definition env_wide : fs := mk_fs true (Some ["wide.jpg"]) (fun _ => Some sample_1000x1) (fun _ _ => false).

(** ** Names *)

Lemma lower_app s t : lower (s ++ t) = lower s ++ lower t.
Proof. induction s as [|a s IH]; simpl; [reflexivity|]. rewrite IH. reflexivity. Qed.

Lemma length_str_app s t : String.length (s ++ t) = (String.length s + String.length t)%nat.
Proof. induction s as [|a s IH]; simpl; [reflexivity|]. rewrite IH. reflexivity. Qed.

Lemma substring_whole t : substring 0 (String.length t) t = t.
Proof. induction t as [|a t IH]; simpl; [reflexivity|]. rewrite IH. reflexivity. Qed.

Lemma substring_app_r s t : substring (String.length s) (String.length t) (s ++ t) = t.
Proof. induction s as [|a s IH]; simpl; [apply substring_whole | exact IH]. Qed.

Lemma endswith_app s t : endswith (s ++ t) t = true.
Proof.
  unfold endswith. rewrite length_str_app.
  replace (String.length s + String.length t - String.length t)%nat with (String.length s) by lia.
  rewrite substring_app_r, String.eqb_refl. apply andb_true_iff. split; [apply Nat.leb_le; lia | reflexivity].
Qed.

Lemma lower_length s : String.length (lower s) = String.length s.
Proof. induction s as [|a s IH]; simpl; congruence. Qed.

Lemma substring_lower n m s : substring n m (lower s) = lower (substring n m s).
Proof.
  revert n m. induction s as [|a s IH]; intros [|n] [|m]; simpl; try reflexivity; rewrite IH; reflexivity.
Qed.

Lemma substring_split k s :
  (k <= String.length s)%nat -> substring 0 k s ++ substring k (String.length s - k) s = s.
Proof.
  revert k. induction s as [|a s IH]; intros [|k] Hk; simpl in *; try reflexivity; try lia.
  - rewrite substring_whole. reflexivity.
  - f_equal. apply IH. lia.
Qed.

(** What [endswith] accepts: a name with the suffix, lower-cased, as its last characters. *)
Lemma endswith_lower_split f e :
  endswith (lower f) e = true -> exists s ext, f = s ++ ext /\ lower ext = e.
Proof.
  unfold endswith. rewrite lower_length. intros [Hle Heq]%andb_true_iff.
  apply Nat.leb_le in Hle. apply String.eqb_eq in Heq.
  set (n := String.length f) in *. set (k := (n - String.length e)%nat).
  exists (substring 0 k f), (substring k (n - k) f). split.
  - symmetry. apply substring_split. unfold k. lia.
  - rewrite <- substring_lower. replace (n - k)%nat with (String.length e) by (unfold k; lia).
    exact Heq.
Qed.

(** C25: Every name that ends with [.png], [.jpg] or [.jpeg] in any
    mix of upper and lower case is taken as an image. *)
Theorem is_image_file_ext s ext :
  In (lower ext) image_exts -> is_image_file (s ++ ext) = true.
Proof.
  intros Hin. unfold is_image_file. apply existsb_exists. exists (lower ext).
  split; [exact Hin|]. rewrite lower_app. apply endswith_app.
Qed.

(** C28: Conversely, every name taken as an image ends with [.png],
    [.jpg] or [.jpeg] in some mix of upper and lower case: the filter of
    line 28 lets nothing else through. *)
Theorem image_file_has_ext f :
  is_image_file f = true -> exists s ext, f = s ++ ext /\ In (lower ext) image_exts.
Proof.
  unfold is_image_file. intros [e [He Hend]]%existsb_exists.
  destruct (endswith_lower_split f e Hend) as (s & ext & -> & Hl).
  exists s, ext. split; [reflexivity|]. rewrite Hl. exact He.
Qed.

(** ** The run *)

Section BatchProofs.
Context `{CvBackend}.

(** C23: A run that finishes prints one line per image file, a saved
    line or an unreadable line, and the summary line, and writes at most
    one output per file. *)
Theorem run_files_log env files st st' :
  run_files env files st = Finished st' ->
  List.length (log st') = (List.length (log st) + List.length files + 1)%nat /\
  (List.length (outputs st') <= List.length (outputs st) + List.length files)%nat.
Proof.
  revert st. induction files as [|f files IH]; simpl; intros st E.
  - injection E as <-. simpl. rewrite length_app. simpl. lia.
  - destruct (imread env _) as [img|].
    + destruct (process_image img) as [fr|e]; [|discriminate].
      destruct (IH _ E) as [Hl Ho]. unfold save in Hl, Ho. simpl in Hl, Ho.
      rewrite length_app in Hl. simpl in Hl.
      destruct (imwrite_ok _ _ _); simpl in Ho; [rewrite length_app in Ho; simpl in Ho|]; split; lia.
    + destruct (IH _ E) as [Hl Ho]. simpl in Hl, Ho. rewrite length_app in Hl. simpl in Hl.
      split; lia.
Qed.

(** C7: The spec's batch scenario: of one readable image and one
    unreadable file, the run writes exactly the image's output, logs one
    read failure, and goes on to the summary line. *)
Theorem one_valid_one_unreadable env good bad img fr :
  makedirs_ok env = true ->
  listdir env = Some [good; bad] -> is_image_file good = true -> is_image_file bad = true ->
  imread env (path_join image_folder good) = Some img ->
  imread env (path_join image_folder bad) = None ->
  process_image img = Ok fr ->
  imwrite_ok env (path_join output_folder good) (output_image fr) = true ->
  main env = Finished (mk_batch [(path_join output_folder good, output_image fr)]
                        [Saved (path_join output_folder good); Unreadable bad; AllDone]).
Proof.
  intros Hm Hl Hg Hb Ig Ib Pf Wg. unfold main, image_files. rewrite Hm, Hl. simpl. rewrite Hg, Hb.
  simpl. rewrite Ig, Pf. unfold save. rewrite Wg. simpl. rewrite Ib. reflexivity.
Qed.

(** C27: When a run crashes, the files before the crashing one were all
    handled (each read, and saved or skipped), the crashing one was read
    and raised while being processed, and the files after it were never
    read: what was written is exactly what the files before it wrote. *)
Theorem run_files_crash_prefix env files st e st' :
  run_files env files st = Crashed e st' ->
  exists pre f post img,
    files = (pre ++ f :: post)%list /\
    imread env (path_join image_folder f) = Some img /\
    process_image img = Raise e /\
    forall post', run_files env (pre ++ f :: post')%list st = Crashed e st'.
Proof.
  revert st. induction files as [|f files IH]; simpl; intros st E; [discriminate|].
  destruct (imread env _) as [img|] eqn:Ei.
  - destruct (process_image img) as [fr|e'] eqn:Ep.
    + destruct (IH _ E) as (pre & g & post & img' & -> & Hi & Hp & Hrun).
      exists (f :: pre), g, post, img'. repeat split; auto.
      intros post'. simpl. rewrite Ei, Ep. apply Hrun.
    + injection E as <- <-. exists [], f, files, img. repeat split; auto.
      intros post'. simpl. rewrite Ei, Ep. reflexivity.
  - destruct (IH _ E) as (pre & g & post & img' & -> & Hi & Hp & Hrun).
    exists (f :: pre), g, post, img'. repeat split; auto.
    intros post'. simpl. rewrite Ei. apply Hrun.
Qed.

Lemma readable_report env f img :
  imread env (path_join image_folder f) = Some img ->
  readable env f = true /\ report env f = Saved (path_join output_folder f).
Proof. intros Ei. unfold report, readable. rewrite Ei. split; reflexivity. Qed.

Lemma unreadable_report env f :
  imread env (path_join image_folder f) = None ->
  readable env f = false /\ report env f = Unreadable f.
Proof. intros Ei. unfold report, readable. rewrite Ei. split; reflexivity. Qed.

(** C29: A run that finishes prints, in the order of the files, the
    saved line of every readable file and the unreadable line of every
    other one, then the summary line; when every write succeeds, the
    outputs are the readable files, in the same order, under the output
    folder. *)
Theorem run_files_finished_trace env files st st' :
  run_files env files st = Finished st' ->
  log st' = (log st ++ map (report env) files ++ [AllDone])%list /\
  ((forall p i, imwrite_ok env p i = true) ->
   map fst (outputs st') =
   (map fst (outputs st) ++ map (path_join output_folder) (filter (readable env) files))%list).
Proof.
  revert st. induction files as [|f files IH]; simpl; intros st E.
  - injection E as <-. simpl. rewrite app_nil_r. split; reflexivity.
  - destruct (imread env _) as [img|] eqn:Ei.
    + destruct (readable_report env f img Ei) as [-> ->].
      destruct (process_image img) as [fr|e]; [|discriminate].
      destruct (IH _ E) as [Hl Ho]. unfold save in Hl, Ho. simpl in Hl, Ho.
      split; [rewrite Hl, <- app_assoc; reflexivity|].
      intros W. rewrite Ho, W by exact W. rewrite map_app, <- app_assoc. reflexivity.
    + destruct (unreadable_report env f Ei) as [-> ->].
      destruct (IH _ E) as [Hl Ho]. simpl in Hl, Ho.
      split; [rewrite Hl, <- app_assoc; reflexivity | exact Ho].
Qed.

Lemma path_join_output_inj f g :
  path_join output_folder f = path_join output_folder g -> f = g.
Proof.
  unfold path_join. replace (endswith output_folder "/") with true by reflexivity.
  generalize output_folder as p. induction p as [|a p IH]; simpl; intros E; [exact E|].
  injection E as E. exact (IH E).
Qed.

(** Writing outputs keeps their paths distinct as long as the files to
    come are distinct and none has a path already written. *)
Lemma run_files_nodup env files st st' :
  NoDup files ->
  NoDup (map fst (outputs st)) ->
  (forall f, In f files -> ~ In (path_join output_folder f) (map fst (outputs st))) ->
  run_files env files st = Finished st' ->
  NoDup (map fst (outputs st')).
Proof.
  revert st. induction files as [|f files IH]; simpl; intros st Hf Ho Hfresh E.
  - injection E as <-. exact Ho.
  - apply NoDup_cons_iff in Hf as [Hnotin Hf].
    destruct (imread env _) as [img|].
    + destruct (process_image img) as [fr|e]; [|discriminate].
      apply (IH (save env st f (output_image fr)) Hf); [| |exact E]; unfold save; simpl;
        destruct (imwrite_ok _ _ _); rewrite ?map_app; simpl.
      * apply NoDup_app; [exact Ho | constructor; [intros []|constructor] |].
        intros o Ho' [<-|[]]. exact (Hfresh f (or_introl eq_refl) Ho').
      * exact Ho.
      * intros g Hg [Hin|[Heq|[]]]%in_app_or.
        -- exact (Hfresh g (or_intror Hg) Hin).
        -- apply path_join_output_inj in Heq. subst. exact (Hnotin Hg).
      * intros g Hg. exact (Hfresh g (or_intror Hg)).
    + apply (IH (mk_batch (outputs st) (log st ++ [Unreadable f])) Hf Ho); [|exact E].
      intros g Hg. exact (Hfresh g (or_intror Hg)).
Qed.

(** A divergence from the spec's error handling: the spec makes a
    failure to create the output folder fatal to one file only, but
    [os.makedirs] at line 21 (and [os.listdir] at line 28) run before the
    loop, outside any [try]: their exception ends the script before any
    file is read, with nothing printed. *)
Lemma main_setup_fails env :
  makedirs_ok env = false \/ listdir env = None -> main env = Crashed OSError (mk_batch [] []).
Proof. unfold main. intros [-> | ->]; [reflexivity|]. destruct (makedirs_ok env); reflexivity. Qed.

(** C9: A divergence from the spec's error handling: an image whose
    float-computed target has an empty side makes [cv2.resize] raise, the
    exception is not caught, and the run stops there, with no output for
    the files after it and no summary line. *)
Theorem run_files_empty_target_crashes env f rest st img nw nh :
  imread env (path_join image_folder f) = Some img ->
  resize_dims (rows img) (cols img) = Ok (nw, nh) -> nw <= 0 \/ nh <= 0 ->
  run_files env (f :: rest) st = Crashed Cv2Error st.
Proof.
  intros Hi Hd Hz. simpl. rewrite Hi. unfold process_image.
  rewrite (normalize_raises_empty img nw nh Hd Hz). reflexivity.
Qed.

(** C24: A divergence from the spec's error handling: the success
    line is printed whatever [cv2.imwrite] returns, so a failed write is
    reported as saved. *)
Theorem save_reports_failed_write env st f img :
  imwrite_ok env (path_join output_folder f) img = false ->
  outputs (save env st f img) = outputs st /\
  log (save env st f img) = (log st ++ [Saved (path_join output_folder f)])%list.
Proof. intros Hw. unfold save. rewrite Hw. split; reflexivity. Qed.

(** C31: No output overwrites another: the names of a folder listing
    are distinct, so the paths written by a run that finishes are
    distinct, one per file at most. *)
Theorem main_outputs_distinct env entries st' :
  listdir env = Some entries -> NoDup entries -> main env = Finished st' ->
  NoDup (map fst (outputs st')).
Proof.
  intros Hl Hd E. unfold main in E. rewrite Hl in E. destruct (makedirs_ok env); [|discriminate].
  apply (run_files_nodup env (image_files entries) (mk_batch [] []) st');
    [apply NoDup_filter, Hd | constructor | | exact E].
  intros f _ [].
Qed.

End BatchProofs.

(** ** Witnesses *)

Lemma is_image_file_ext_witness :
  In (lower ".JPeg") image_exts /\ is_image_file ("holiday" ++ ".JPeg") = true.
Proof.
  assert (Hin : In (lower ".JPeg") image_exts) by (simpl; auto).
  split; [exact Hin | exact (is_image_file_ext "holiday" ".JPeg" Hin)].
Defined.

Lemma image_file_has_ext_witness :
  is_image_file "B.JPG" = true /\ exists s ext, "B.JPG" = s ++ ext /\ In (lower ext) image_exts.
Proof.
  split; [reflexivity|]. apply image_file_has_ext. reflexivity.
Defined.

Lemma run_files_log_witness :
  main env_unreadable = Finished (mk_batch [] [Unreadable "a.png"; Unreadable "B.JPG"; AllDone]) /\
  List.length [Unreadable "a.png"; Unreadable "B.JPG"; AllDone] = (0 + 2 + 1)%nat.
Proof.
  assert (E : run_files env_unreadable ["a.png"; "B.JPG"] (mk_batch [] []) =
              Finished (mk_batch [] [Unreadable "a.png"; Unreadable "B.JPG"; AllDone]))
    by reflexivity.
  split; [exact E|]. exact (proj1 (run_files_log _ _ _ _ E)).
Defined.

Lemma run_files_finished_trace_witness :
  run_files env_unreadable ["a.png"; "B.JPG"] (mk_batch [] []) =
    Finished (mk_batch [] [Unreadable "a.png"; Unreadable "B.JPG"; AllDone]) /\
  [Unreadable "a.png"; Unreadable "B.JPG"; AllDone] =
    ([] ++ map (report env_unreadable) ["a.png"; "B.JPG"] ++ [AllDone])%list.
Proof.
  assert (E : run_files env_unreadable ["a.png"; "B.JPG"] (mk_batch [] []) =
              Finished (mk_batch [] [Unreadable "a.png"; Unreadable "B.JPG"; AllDone]))
    by reflexivity.
  split; [exact E|]. exact (proj1 (run_files_finished_trace _ _ _ _ E)).
Defined.

Lemma one_valid_one_unreadable_witness :
  exists fr, process_image sample_97x50 = Ok fr /\
    main env_good_bad = Finished (mk_batch [(path_join output_folder "good.png", output_image fr)]
      [Saved (path_join output_folder "good.png"); Unreadable "bad.jpg"; AllDone]).
Proof.
  destruct (normalize sample_97x50) as [p|e] eqn:E; [|vm_compute in E; discriminate].
  exists (band_loop (to_hsv p) (init_frame p)).
  assert (Ep : process_image sample_97x50 = Ok (band_loop (to_hsv p) (init_frame p)))
    by (unfold process_image; rewrite E; reflexivity).
  split; [exact Ep|].
  apply (one_valid_one_unreadable env_good_bad "good.png" "bad.jpg" sample_97x50 _
           eq_refl eq_refl eq_refl eq_refl eq_refl eq_refl Ep eq_refl).
Defined.

Lemma run_files_empty_target_crashes_witness :
  resize_dims (rows sample_1000x1) (cols sample_1000x1) = Ok (800, 0) /\
  run_files env_wide ["wide.jpg"; "after.png"] (mk_batch [] []) = Crashed Cv2Error (mk_batch [] []).
Proof.
  assert (Hd : resize_dims (rows sample_1000x1) (cols sample_1000x1) = Ok (800, 0))
    by (vm_compute; reflexivity).
  split; [exact Hd|].
  apply (run_files_empty_target_crashes env_wide "wide.jpg" _ _ sample_1000x1 800 0);
    [reflexivity | exact Hd | lia].
Defined.

Lemma run_files_crash_prefix_witness :
  run_files env_wide ["wide.jpg"; "after.png"] (mk_batch [] []) = Crashed Cv2Error (mk_batch [] []) /\
  exists pre f post img,
    ["wide.jpg"; "after.png"] = (pre ++ f :: post)%list /\
    imread env_wide (path_join image_folder f) = Some img /\
    process_image img = Raise Cv2Error /\
    forall post', run_files env_wide (pre ++ f :: post')%list (mk_batch [] []) =
                  Crashed Cv2Error (mk_batch [] []).
Proof.
  assert (Hd : resize_dims (rows sample_1000x1) (cols sample_1000x1) = Ok (800, 0))
    by (vm_compute; reflexivity).
  assert (E : run_files env_wide ["wide.jpg"; "after.png"] (mk_batch [] []) =
              Crashed Cv2Error (mk_batch [] []))
    by (cbn [run_files]; change (imread env_wide _) with (Some sample_1000x1);
        unfold process_image; rewrite (normalize_raises_empty sample_1000x1 800 0 Hd) by lia;
        reflexivity).
  split; [exact E|]. exact (run_files_crash_prefix _ _ _ _ _ E).
Defined.

Lemma save_reports_failed_write_witness :
  imwrite_ok env_wide (path_join output_folder "wide.jpg") sample_1000x1 = false /\
  outputs (save env_wide (mk_batch [] []) "wide.jpg" sample_1000x1) = [] /\
  log (save env_wide (mk_batch [] []) "wide.jpg" sample_1000x1) =
    ([] ++ [Saved (path_join output_folder "wide.jpg")])%list.
Proof.
  assert (Hw : imwrite_ok env_wide (path_join output_folder "wide.jpg") sample_1000x1 = false)
    by reflexivity.
  split; [exact Hw|]. exact (save_reports_failed_write env_wide (mk_batch [] []) _ _ Hw).
Defined.

Lemma main_outputs_distinct_witness :
  exists st', listdir env_good_bad = Some ["good.png"; "bad.jpg"] /\ NoDup ["good.png"; "bad.jpg"] /\
              main env_good_bad = Finished st' /\ NoDup (map fst (outputs st')).
Proof.
  destruct (normalize sample_97x50) as [p|e] eqn:E; [|vm_compute in E; discriminate].
  assert (Ep : process_image sample_97x50 = Ok (band_loop (to_hsv p) (init_frame p)))
    by (unfold process_image; rewrite E; reflexivity).
  assert (Hd : NoDup ["good.png"; "bad.jpg"])
    by (constructor; [intros [H|[]]; discriminate | constructor; [intros [] | constructor]]).
  assert (M : main env_good_bad =
            Finished (mk_batch [(path_join output_folder "good.png", output_image (band_loop (to_hsv p) (init_frame p)))]
                       [Saved (path_join output_folder "good.png"); Unreadable "bad.jpg"; AllDone])).
  { change (main env_good_bad) with (run_files env_good_bad ["good.png"; "bad.jpg"] (mk_batch [] [])).
    cbn [run_files]. change (imread env_good_bad (path_join image_folder "good.png")) with (Some sample_97x50).
    cbv beta iota. rewrite Ep. reflexivity. }
  eexists. split; [reflexivity|]. split; [exact Hd|]. split; [exact M|].
  exact (main_outputs_distinct env_good_bad _ _ eq_refl Hd M).
Defined.

