(* ===== verification/Console.v ===== *)
(** * Console: the text the script prints (lines 35, 106 and 108 of [src/y.py])

    [Batch] records which line each file produced ([log_line]); here is
    the text of those lines, as the f-strings of lines 35, 106 and 108
    spell it (UTF-8, as Python writes it to a UTF-8 console), and the
    standard output as the concatenation of the prints, each followed by
    the newline [print] adds.  A decoder [parse_stdout], written for the
    theorems, reads the output back: it recovers the log exactly when no
    printed name holds a newline, and a file name with a newline makes two
    different runs print the same text. *)

From Stdlib Require Import List String Ascii Bool.
From S2P Require Import Prelude Batch.
Import ListNotations.
Open Scope string_scope.

(** The fixed parts of the three f-strings. *)
Definition unreadable_text : string := "未讀取到圖片: ".
Definition saved_text : string := "已處理並儲存: ".
Definition done_text : string := "所有圖片處理完成！".

(** Lines 35, 106 and 108: the text of one [print]. *)
Definition console_line (l : log_line) : string :=
  match l with
  | Unreadable image_file => unreadable_text ++ image_file
  | Saved output_path => saved_text ++ output_path
  | AllDone => done_text
  end.

Definition newline_char : ascii := ascii_of_nat 10.
Definition newline : string := String newline_char EmptyString.

(** What the prints of a run write to standard output: each text followed
    by [print]'s newline. *)
Fixpoint stdout (ls : list log_line) : string :=
  match ls with
  | [] => EmptyString
  | l :: ls' => console_line l ++ newline ++ stdout ls'
  end.

(** ** The decoder *)

Fixpoint has_newline (s : string) : bool :=
  match s with
  | EmptyString => false
  | String a s' => Ascii.eqb a newline_char || has_newline s'
  end.

(** [s] with the prefix [p] removed, if [s] starts with [p]. *)
Fixpoint strip_prefix (p s : string) : option string :=
  match p, s with
  | EmptyString, _ => Some s
  | String a p', String b s' => if Ascii.eqb a b then strip_prefix p' s' else None
  | String _ _, EmptyString => None
  end.

Definition parse_line (x : string) : option log_line :=
  match strip_prefix unreadable_text x with
  | Some f => Some (Unreadable f)
  | None =>
      match strip_prefix saved_text x with
      | Some p => Some (Saved p)
      | None => if String.eqb x done_text then Some AllDone else None
      end
  end.

(** The text between newlines, the last piece after the last newline. *)
Fixpoint split_lines (s : string) : list string :=
  match s with
  | EmptyString => [EmptyString]
  | String a s' =>
      match split_lines s' with
      | seg :: rest => if Ascii.eqb a newline_char then EmptyString :: seg :: rest
                       else String a seg :: rest
      | [] => [String a EmptyString]
      end
  end.

(** Every piece but the last is a printed line; the last is empty. *)
Fixpoint parse_pieces (pieces : list string) : option (list log_line) :=
  match pieces with
  | [] => None
  | x :: rest =>
      match rest with
      | [] => if String.eqb x EmptyString then Some [] else None
      | _ :: _ =>
          match parse_line x, parse_pieces rest with
          | Some l, Some ls => Some (l :: ls)
          | _, _ => None
          end
      end
  end.

Definition parse_stdout (s : string) : option (list log_line) := parse_pieces (split_lines s).

(** ** Theorems *)

Lemma strip_prefix_app p s : strip_prefix p (p ++ s) = Some s.
Proof.
  induction p as [|a p IH]; simpl; [reflexivity|]. rewrite Ascii.eqb_refl. exact IH.
Qed.

Lemma parse_console_line l : parse_line (console_line l) = Some l.
Proof.
  destruct l as [f|p|]; unfold parse_line, console_line.
  - rewrite strip_prefix_app. reflexivity.
  - rewrite strip_prefix_app. reflexivity.
  - reflexivity.
Qed.

Lemma split_lines_nonempty s : split_lines s <> [].
Proof. destruct s as [|a s]; simpl; [discriminate|]. destruct (split_lines s); [|destruct (Ascii.eqb _ _)]; discriminate. Qed.

Lemma split_lines_app x r :
  has_newline x = false -> split_lines (x ++ newline ++ r) = x :: split_lines r.
Proof.
  change (newline ++ r) with (String newline_char r).
  induction x as [|a x IH]; simpl; intros Hx.
  - destruct (split_lines r) as [|seg rest] eqn:E; [exfalso; exact (split_lines_nonempty r E)|]. reflexivity.
  - apply orb_false_iff in Hx as [Ha Hx]. rewrite (IH Hx), Ha. reflexivity.
Qed.

Lemma parse_pieces_cons x rest :
  rest <> [] ->
  parse_pieces (x :: rest) =
  match parse_line x, parse_pieces rest with Some l, Some ls => Some (l :: ls) | _, _ => None end.
Proof. destruct rest; [congruence | reflexivity]. Qed.

(** C30: Printing and reading back are inverse: when no printed line
    holds a newline, the standard output of a run determines its log,
    one line per print, in order. *)
Theorem stdout_roundtrip ls :
  (forall l, In l ls -> has_newline (console_line l) = false) ->
  parse_stdout (stdout ls) = Some ls.
Proof.
  unfold parse_stdout. induction ls as [|l ls IH]; intros Hnl; [reflexivity|].
  cbn [stdout]. rewrite split_lines_app by (apply Hnl; left; reflexivity).
  rewrite parse_pieces_cons by apply split_lines_nonempty.
  rewrite parse_console_line, IH by (intros l' Hl'; apply Hnl; right; exact Hl'). reflexivity.
Qed.

(** A file name that ends in [.png] may hold a newline and the text of a
    success line: one saved file then prints as two success lines, the
    same output as a run that saved two files. *)
Definition spoof_name : string :=
  "x.png" ++ newline ++ saved_text ++ path_join output_folder "y.png".

Lemma stdout_ambiguous :
  is_image_file spoof_name = true /\
  stdout [Saved (path_join output_folder spoof_name)] =
  stdout [Saved (path_join output_folder "x.png"); Saved (path_join output_folder "y.png")].
Proof. split; reflexivity. Qed.

Lemma has_newline_app a b : has_newline (a ++ b) = has_newline a || has_newline b.
Proof. induction a as [|c a IH]; simpl; [reflexivity|]. rewrite IH, orb_assoc. reflexivity. Qed.

(** A printed line holds a newline only where its name does. *)
Lemma console_line_newline l :
  has_newline (console_line l) =
  match l with Unreadable f => has_newline f | Saved p => has_newline p | AllDone => false end.
Proof. destruct l; unfold console_line; [rewrite has_newline_app..|]; reflexivity. Qed.

(** ** Witnesses *)

Lemma stdout_roundtrip_witness :
  let ls := [Unreadable "a.png"; Saved (path_join output_folder "b.png"); AllDone] in
  (forall l, In l ls -> has_newline (console_line l) = false) /\ parse_stdout (stdout ls) = Some ls.
Proof.
  intros ls. assert (H : forall l, In l ls -> has_newline (console_line l) = false)
    by (intros l [<-|[<-|[<-|[]]]]; reflexivity).
  split; [exact H | exact (stdout_roundtrip ls H)].
Defined.
